(** * LookOutCV: the schema-evolving prediction log

    A shallow embedding of
      - [logger/logger.py]        ([CVMetrics], [BaseLogger]),
      - [detection/detection_logger.py] ([_MANDATORY_FIELDS]),
      - [metrics/metrics.py]      ([ImageMetricsCalculator]),
      - [metrics/data_insights.py] ([DataInsightsCalculator._load_data]),
    followed by the properties of the log that the prose specification
    states.

    Conventions of the embedding.
      - A Python exception is an [Outcome] of the form [Raise e]; only
        exceptions deriving from [Exception] are modelled.
      - Library calls whose result the repository does not decide (the
        builtins [int], [float], [bool], [str], pyarrow's array
        constructor, numpy, PIL and OpenCV) are fields of the classes
        [Builtins] and [ImageLib]: every statement below holds for every
        behaviour of those libraries.
      - The parquet file of a logger is one cell of the [World]; reads and
        writes of it and the construction and use of the metric calculator
        leave events in the world's trace.  Writing a table always
        succeeds, and reading back returns the table written.
      - Diagnostic [print] calls are not part of the model. *)

From Stdlib Require Import ZArith String Ascii List.
From Stdlib Require Import Floats.PrimFloat Floats.SpecFloat Floats.FloatOps.
From stdpp Require Import base option list strings pretty gmap.

Local Open Scope string_scope.
Local Open Scope list_scope.

(** ** Exceptions *)

(** [LibraryError] stands for whatever a library raises. *)
Inductive exn : Type :=
  | ValueError (msg : string)
  | IOError (msg : string)
  | FileNotFoundError (msg : string)
  | LibraryError (origin : string).

Inductive Outcome (A : Type) : Type :=
  | Ok (a : A)
  | Raise (e : exn).
Arguments Ok {A} a.
Arguments Raise {A} e.

(** ** Python values *)

(** Pixel buffers and decoded PIL images are owned by numpy and PIL; the
    repository only ever looks at the shape of an array. *)
Class Opaque : Type := {
  buffer : Type;
  pil_image : Type;
}.

Section Model.

Context {O : Opaque}.

Record ndarray : Type := mk_ndarray {
  shape : list nat;
  pixels : buffer;
}.

Definition ndim (a : ndarray) : nat := length (shape a).

Inductive pyval : Type :=
  | PyNone
  | PyBool (b : bool)
  | PyInt (z : Z)
  | PyFloat (f : float)
  | PyStr (s : string)
  | PyArray (a : ndarray)
  | PyImage (i : pil_image)
  | PyObject (id : nat).

Definition is_None (v : pyval) : bool :=
  match v with PyNone => true | _ => false end.

(** ** Strings *)

(** [needle in hay] on Python strings. *)
Fixpoint str_in (needle hay : string) : bool :=
  if String.prefix needle hay then true
  else match hay with
       | EmptyString => false
       | String _ rest => str_in needle rest
       end.

Definition ascii_lower (c : ascii) : ascii :=
  let n := nat_of_ascii c in
  if (65 <=? n)%nat && (n <=? 90)%nat then ascii_of_nat (n + 32) else c.

(** [s.lower()] on ASCII strings. *)
Fixpoint lower (s : string) : string :=
  match s with
  | EmptyString => EmptyString
  | String c rest => String (ascii_lower c) (lower rest)
  end.

(** ** Arrow tables *)

Inductive DataType : Type :=
  | pa_int (bits : nat) (signed : bool)
  | pa_float (bits : nat)
  | pa_bool
  | pa_string
  | pa_other (name : string).

Definition pa_float32 : DataType := pa_float 32.

Definition is_integer (t : DataType) : bool :=
  match t with pa_int _ _ => true | _ => false end.
Definition is_floating (t : DataType) : bool :=
  match t with pa_float _ => true | _ => false end.
Definition is_boolean (t : DataType) : bool :=
  match t with pa_bool => true | _ => false end.
Definition is_string (t : DataType) : bool :=
  match t with pa_string => true | _ => false end.

Record Field : Type := pa_field {
  name : string;
  type : DataType;
}.

(** A cell of a column: null, or the value that was handed to pyarrow. *)
Inductive Cell : Type :=
  | Null
  | Val (v : pyval).

Record Column : Type := mk_column {
  field : Field;
  cells : list Cell;
}.

Record Table : Type := mk_table {
  columns : list Column;
  num_rows : nat;
}.

Definition schema (t : Table) : list Field := map field (columns t).
Definition names (s : list Field) : list string := map name s.

(** ** [CVMetrics] *)

Inductive CVMetrics : Type := CONTRAST | BLUR | ORIENTATION | BBOX_RATIO.

Definition member_name (m : CVMetrics) : string :=
  match m with
  | CONTRAST => "CONTRAST"
  | BLUR => "BLUR"
  | ORIENTATION => "ORIENTATION"
  | BBOX_RATIO => "BBOX_RATIO"
  end.

(** [_generate_next_value_] gives every member the value [name.lower()]. *)
Definition value (m : CVMetrics) : string := lower (member_name m).

(** ** [DetectionLogger] *)

Definition _MANDATORY_FIELDS : list string :=
  ["image_name"; "pred_class"; "confidence";
   "bbox_x1"; "bbox_y1"; "bbox_x2"; "bbox_y2"].

(** ** [BaseLogger._create_schema] *)

Definition mandatory_dtype (field_name : string) : DataType :=
  if str_in "name" field_name || str_in "class" field_name
  then pa_string else pa_float32.

Definition _create_schema (enabled_metrics : list CVMetrics) : list Field :=
  let fields := map (fun field_name => pa_field field_name (mandatory_dtype field_name))
                    _MANDATORY_FIELDS in
  fields ++ map (fun field => pa_field (value field) pa_float32) enabled_metrics.

(** ** Library interfaces *)

(** The Python builtins and the pyarrow array constructor.  [py_int v] is
    [int(v)] and so on; [pa_accepts t v] tells whether
    [pa.array([v], type=t)] accepts the non-None value [v]; [set_iter s]
    is the order in which the interpreter iterates over the set [s]. *)
Class Builtins : Type := {
  py_int : pyval -> Outcome pyval;
  py_float : pyval -> Outcome pyval;
  py_bool : pyval -> Outcome pyval;
  py_str : pyval -> Outcome pyval;
  pa_accepts : DataType -> pyval -> bool;
  set_iter : gset string -> list string;
  set_iter_perm : forall s, set_iter s ≡ₚ elements s;
}.

(** PIL, numpy and OpenCV, as far as [metrics.py] calls them.  The
    numeric results are already passed through [float(...)]. *)
Class ImageLib : Type := {
  Image_open : string -> Outcome pil_image;
  np_array : pil_image -> Outcome ndarray;
  np_std : ndarray -> Outcome float;
  np_mean : ndarray -> Outcome float;
  cv2_cvtColor_RGB2GRAY : ndarray -> Outcome ndarray;
  cv2_Laplacian_var : ndarray -> Outcome float;
}.

(** ** The world and its monad *)

Inductive Event : Type :=
  | EvExists
  | EvRead
  | EvWrite
  | EvConstruct
  | EvCall (method : string).

Inductive File : Type :=
  | Garbage
  | Parquet (t : Table).

Record World : Type := mk_world {
  store : option File;
  trace : list Event;
}.

Definition M (A : Type) : Type := World -> Outcome A * World.

Definition ret {A} (a : A) : M A := fun w => (Ok a, w).

Definition bind {A B} (m : M A) (k : A -> M B) : M B :=
  fun w => match m w with
           | (Ok a, w') => k a w'
           | (Raise e, w') => (Raise e, w')
           end.

Definition raise {A} (e : exn) : M A := fun w => (Raise e, w).

(** The result of a library call, or of a pure loop that may raise. *)
Definition lift {A} (o : Outcome A) : M A := fun w => (o, w).

(** [try: m except Exception as e: ...], with the handler left to the
    caller. *)
Definition attempt {A} (m : M A) : M (Outcome A) :=
  fun w => let (o, w') := m w in (Ok o, w').

Definition emit (ev : Event) : M unit :=
  fun w => (Ok tt, mk_world (store w) (trace w ++ [ev])).

Declare Scope py_scope.
Delimit Scope py_scope with py.
Notation "'let!' x ':=' m 'in' k" := (bind m (fun x => k))
  (at level 10, x name, m at level 100, k at level 200) : py_scope.
Notation "'exec' m 'in' k" := (bind m (fun _ => k))
  (at level 10, m at level 100, k at level 200) : py_scope.
Local Open Scope py_scope.

Definition obind {A B} (o : Outcome A) (k : A -> Outcome B) : Outcome B :=
  match o with
  | Ok a => k a
  | Raise e => Raise e
  end.

(** [os.path.exists(self.parquet_file)] *)
Definition path_exists : M bool :=
  fun w => (Ok (bool_decide (is_Some (store w))),
            mk_world (store w) (trace w ++ [EvExists])).

(** [pq.read_table(self.parquet_file)] *)
Definition read_table : M Table :=
  fun w =>
    let w' := mk_world (store w) (trace w ++ [EvRead]) in
    match store w with
    | Some (Parquet t) => (Ok t, w')
    | Some Garbage => (Raise (LibraryError "pyarrow"), w')
    | None => (Raise (FileNotFoundError "parquet_file"), w')
    end.

(** [pq.write_table(table, self.parquet_file)] *)
Definition write_table (table : Table) : M unit :=
  fun w => (Ok tt, mk_world (Some (Parquet table)) (trace w ++ [EvWrite])).

(** ** pyarrow operations *)

Context {B : Builtins}.

(** One element of [pa.array(values, type=t)]. *)
Definition pa_scalar (t : DataType) (v : pyval) : Outcome Cell :=
  match v with
  | PyNone => Ok Null
  | _ => if pa_accepts t v then Ok (Val v) else Raise (LibraryError "pyarrow")
  end.

Fixpoint pa_array (values : list pyval) (t : DataType)
  : Outcome (list Cell) :=
  match values with
  | [] => Ok []
  | v :: rest =>
      obind (pa_scalar t v) (fun c =>
      obind (pa_array rest t) (fun cs => Ok (c :: cs)))
  end.

(** [pa.Table.from_arrays(arrays, schema=schema)] *)
Definition from_arrays (arrays : list (list Cell)) (sch : list Field)
  : Table :=
  mk_table (zip_with mk_column sch arrays)
           (match arrays with [] => 0 | a :: _ => length a end).

(** [table.append_column(col, col_array)]; the new field takes the type
    of the array, which is float32 at the only call site. *)
Definition append_column (table : Table) (col : string)
    (col_array : list Cell) : Table :=
  mk_table (columns table ++ [mk_column (pa_field col pa_float32) col_array])
           (num_rows table).

(** [pa.concat_tables([t1, t2])] for two tables of one schema. *)
Definition concat_tables (t1 t2 : Table) : Table :=
  mk_table (zip_with (fun c1 c2 => mk_column (field c1) (cells c1 ++ cells c2))
                     (columns t1) (columns t2))
           (num_rows t1 + num_rows t2).

(** ** [ImageMetricsCalculator] *)

Context {I : ImageLib}.

Record ImageMetricsCalculator : Type := mk_calc {
  image : option ndarray;
}.

(** [_set_image]; an input that is neither a PIL image, an array nor a
    string leaves [self.image] at [None]. *)
Definition _set_image (img : pyval) : Outcome (option ndarray) :=
  match img with
  | PyImage i => obind (np_array i) (fun a => Ok (Some a))
  | PyArray a =>
      if Nat.eqb (ndim a) 2
      then Ok (Some (mk_ndarray (shape a ++ [1]) (pixels a)))
      else Ok (Some a)
  | PyStr path =>
      obind (Image_open path) (fun i =>
      obind (np_array i) (fun a => Ok (Some a)))
  | _ => Ok None
  end.

(** The numeric libraries reject [None] in place of an array. *)
Definition on_image {A} (self : ImageMetricsCalculator)
    (k : ndarray -> Outcome A) : Outcome A :=
  match image self with
  | Some a => k a
  | None => Raise (LibraryError "NoneType")
  end.

Definition calculate_contrast (self : ImageMetricsCalculator) : Outcome float :=
  on_image self np_std.

Definition calculate_blur (self : ImageMetricsCalculator) : Outcome float :=
  on_image self (fun a =>
    obind (if Nat.eqb (length (shape a)) 3
           then cv2_cvtColor_RGB2GRAY a else Ok a)
          cv2_Laplacian_var).

Definition calculate_orientation_type (self : ImageMetricsCalculator)
  : Outcome float :=
  on_image self (fun a =>
    match shape a with
    | h :: w :: _ =>
        if (w <? h)%nat then Ok 0.0%float
        else if (h <? w)%nat then Ok 1.0%float
        else Ok 0.5%float
    | _ => Raise (ValueError "not enough values to unpack")
    end).

Definition calculate_brightness (self : ImageMetricsCalculator) : Outcome float :=
  on_image self np_mean.

(** The methods that [getattr(calc, method_name)] can find under a name
    starting with [calculate_]. *)
Definition calc_methods
  : list (string * (ImageMetricsCalculator -> Outcome float)) :=
  [ ("calculate_contrast", calculate_contrast);
    ("calculate_blur", calculate_blur);
    ("calculate_orientation_type", calculate_orientation_type);
    ("calculate_brightness", calculate_brightness) ].

Fixpoint assoc {A} (key : string) (l : list (string * A)) : option A :=
  match l with
  | [] => None
  | (k, a) :: rest => if String.eqb key k then Some a else assoc key rest
  end.

Definition getattr (method_name : string)
  : option (ImageMetricsCalculator -> Outcome float) :=
  assoc method_name calc_methods.

(** [ImageMetricsCalculator(image)] *)
Definition new_calculator (img : pyval) : M ImageMetricsCalculator :=
  exec emit EvConstruct in
  let! a := lift (_set_image img) in
  ret (mk_calc a).

(** [getattr(calc, method_name)()] *)
Definition call_method (method_name : string)
    (method : ImageMetricsCalculator -> Outcome float)
    (calc : ImageMetricsCalculator) : M pyval :=
  exec emit (EvCall method_name) in
  let! v := lift (method calc) in
  ret (PyFloat v).

(** ** [BaseLogger] *)

Record BaseLogger : Type := mk_logger {
  model_name : string;
  enabled_metrics : list CVMetrics;
  logs_dir : string;
}.

(** [for field in self.enabled_metrics: results[field.value] = None] *)
Definition all_none (fields : list CVMetrics) (results : gmap string pyval)
  : gmap string pyval :=
  foldl (fun results field => <[value field := PyNone]> results) results fields.

(** The body of the loop over the enabled metrics. *)
Definition metric_step (calc : ImageMetricsCalculator) (field : CVMetrics)
  : M pyval :=
  let metric_name := value field in
  let method_name := "calculate_" +:+ metric_name in
  let! r := attempt
              (match getattr method_name with
               | Some method => call_method method_name method calc
               | None => ret PyNone
               end) in
  ret (match r with Ok v => v | Raise _ => PyNone end).

Fixpoint metric_loop (calc : ImageMetricsCalculator) (fields : list CVMetrics)
    (results : gmap string pyval) : M (gmap string pyval) :=
  match fields with
  | [] => ret results
  | field :: rest =>
      let! v := metric_step calc field in
      metric_loop calc rest (<[value field := v]> results)
  end.

(** What the loop stores for one metric on its own: the float its method
    returns, or [None] when there is no method of that name or the
    method raises; and the events that this leaves. *)
Definition metric_value (calc : ImageMetricsCalculator) (field : CVMetrics)
  : pyval :=
  match getattr ("calculate_" +:+ value field) with
  | Some method =>
      match method calc with
      | Ok v => PyFloat v
      | Raise _ => PyNone
      end
  | None => PyNone
  end.

Definition metric_events (field : CVMetrics) : list Event :=
  match getattr ("calculate_" +:+ value field) with
  | Some _ => [EvCall ("calculate_" +:+ value field)]
  | None => []
  end.

Definition calculate_image_metrics (self : BaseLogger) (img : pyval)
  : M (gmap string pyval) :=
  let results : gmap string pyval := ∅ in
  if is_None img || bool_decide (enabled_metrics self = [])
  then ret (all_none (enabled_metrics self) results)
  else
    let! r := attempt (new_calculator img) in
    match r with
    | Raise _ => ret (all_none (enabled_metrics self) results)
    | Ok calc => metric_loop calc (enabled_metrics self) results
    end.

(** The per-column conversion of [save_to_parquet]: [convert] is the
    branch on the declared type, [coerce] puts it inside
    [try ... except Exception: value = None]. *)
Definition convert (field_type : DataType) (v : pyval) : Outcome pyval :=
  if is_integer field_type then py_int v
  else if is_floating field_type then py_float v
  else if is_boolean field_type then py_bool v
  else if is_string field_type then py_str v
  else Ok v.

Definition coerce (field_type : DataType) (v : pyval) : pyval :=
  match convert field_type v with
  | Ok v' => v'
  | Raise _ => PyNone
  end.

(** One iteration of the loop over the columns. *)
Definition column_array (f : Field) (v : pyval) : Outcome (list Cell) :=
  match v with
  | PyNone => pa_array [PyNone] (type f)
  | _ => pa_array [coerce (type f) v] (type f)
  end.

Fixpoint column_arrays (sch : list Field) (row : list pyval)
  : Outcome (list (list Cell)) :=
  match sch, row with
  | f :: sch', v :: row' =>
      obind (column_array f v) (fun a =>
      obind (column_arrays sch' row') (fun arrays => Ok (a :: arrays)))
  | _, _ => Ok []
  end.

(** [[data.get(name, None) for name in schema.names]] *)
Definition data_row (data : gmap string pyval) (sch : list Field) : list pyval :=
  map (fun n => default PyNone (data !! n)) (names sch).

Definition save_to_parquet (self : BaseLogger) (data : gmap string pyval)
  : M unit :=
  let! r := attempt
              (let! existing_table := read_table in
               let sch := schema existing_table in
               let row := data_row data sch in
               ret (existing_table, sch, row)) in
  match r with
  | Raise _ => raise (IOError "Failed to read parquet file")
  | Ok (existing_table, sch, row) =>
      let! arrays := lift (column_arrays sch row) in
      let new_table := from_arrays arrays sch in
      let combined_table := concat_tables existing_table new_table in
      write_table combined_table
  end.

(** The loop over the mandatory fields at the head of [log_prediction]. *)
Fixpoint mandatory_loop (fields : list string) (kwargs data : gmap string pyval)
  : Outcome (gmap string pyval) :=
  match fields with
  | [] => Ok data
  | f :: rest =>
      match kwargs !! f with
      | Some v => mandatory_loop rest kwargs (<[f := v]> data)
      | None => Raise (ValueError ("Missing mandatory field: " +:+ f))
      end
  end.

Definition log_prediction (self : BaseLogger) (kwargs : gmap string pyval)
  : M unit :=
  let! data := lift (mandatory_loop _MANDATORY_FIELDS kwargs ∅) in
  let! computed_metrics :=
    calculate_image_metrics self (default PyNone (kwargs !! "image")) in
  (* [data.update(computed_metrics)]: the metrics win on a shared key. *)
  let data := computed_metrics ∪ data in
  save_to_parquet self data.

Definition _evolve_schema (self : BaseLogger) : M unit :=
  let! existing_table := read_table in
  let existing_cols : gset string := list_to_set (names (schema existing_table)) in
  let new_schema := _create_schema (enabled_metrics self) in
  let expected_cols : gset string := list_to_set (names new_schema) in
  let missing_cols := expected_cols ∖ existing_cols in
  if bool_decide (missing_cols = ∅) then ret tt
  else
    let existing_table :=
      foldl (fun t col => append_column t col (repeat Null (num_rows t)))
            existing_table (set_iter missing_cols) in
    write_table existing_table.

(** [BaseLogger.__init__]; [enabled_metrics or []] is the [default].  The
    directories and the file name only decide which file the world's
    [store] stands for. *)
Definition __init__ (model_name : string)
    (enabled : option (list CVMetrics)) (logs_dir : string)
  : M BaseLogger :=
  let self := mk_logger model_name (default [] enabled) logs_dir in
  let! present := path_exists in
  if negb present then
    let sch := _create_schema (enabled_metrics self) in
    let empty_table := from_arrays (map (fun _ => []) sch) sch in
    exec write_table empty_table in
    ret self
  else
    exec _evolve_schema self in
    ret self.

(** ** [DataInsightsCalculator._load_data] *)

(** What the analytics consumer gets from pandas: the column names and
    the rows. *)
Record DataFrame : Type := mk_frame {
  df_columns : list string;
  df_rows : list (list Cell);
}.

Definition table_row (t : Table) (i : nat) : list Cell :=
  map (fun c => nth i (cells c) Null) (columns t).

Definition table_rows (t : Table) : list (list Cell) :=
  map (table_row t) (seq 0 (num_rows t)).

Definition to_pandas (t : Table) : DataFrame :=
  mk_frame (names (schema t)) (table_rows t).

(** [fnmatch(file_name, "*.parquet")] as [glob] applies it: a name
    starting with a dot is never matched by a pattern starting with [*]. *)
Definition matches_parquet (file_name : string) : bool :=
  negb (String.prefix "." file_name)
  && String.prefix (String.rev ".parquet") (String.rev file_name).

(** The files of [<parquet_folder_path>/<model_name>/], in the order in
    which [glob] meets them; a missing directory has no files. *)
Definition Directory : Type := list (string * File).

Definition glob_parquet (dir : Directory) : Directory :=
  filter (fun entry => matches_parquet (fst entry)) dir.

Definition read_file (f : File) : Outcome Table :=
  match f with
  | Parquet t => Ok t
  | Garbage => Raise (LibraryError "pyarrow")
  end.

Definition _load_data (dir : Directory) : Outcome DataFrame :=
  let body :=
    let parquet_files := glob_parquet dir in
    match parquet_files with
    | [] => Raise (FileNotFoundError "No parquet files found")
    | first :: _ =>
        obind (read_file (snd first)) (fun table => Ok (to_pandas table))
    end in
  match body with
  | Ok data => Ok data
  | Raise _ => Raise (IOError "Failed to load data from parquet file")
  end.

(** ** Histories of a store *)

(** What a process does to the store of one model: it constructs a
    logger, or logs a prediction through a logger it holds. *)
Inductive Op : Type :=
  | Construct (model_name : string) (enabled : option (list CVMetrics))
              (logs_dir : string)
  | Log (self : BaseLogger) (kwargs : gmap string pyval).

Definition step (op : Op) (w : World) : World :=
  match op with
  | Construct model_name enabled logs_dir =>
      snd (__init__ model_name enabled logs_dir w)
  | Log self kwargs => snd (log_prediction self kwargs w)
  end.

Definition history (ops : list Op) (w : World) : World :=
  foldl (fun w op => step op w) w ops.

(** The columns of the store, when it holds a readable table. *)
Definition store_schema (w : World) : option (list Field) :=
  match store w with
  | Some (Parquet t) => Some (schema t)
  | _ => None
  end.

Definition store_rows (w : World) : option nat :=
  match store w with
  | Some (Parquet t) => Some (num_rows t)
  | _ => None
  end.

(** ** What the claims' places leave aside *)

#[global] Instance CVMetrics_eq_dec : EqDecision CVMetrics.
Proof. solve_decision. Defined.

(** [CVMetrics.requires_image]:
    [self in {self.CONTRAST, self.BLUR, self.ORIENTATION}] *)
Definition requires_image (self : CVMetrics) : bool :=
  bool_decide (self ∈ [CONTRAST; BLUR; ORIENTATION]).

(** [DetectionLogger._ADDITIONAL_REQUIREMENTS] *)
Definition _ADDITIONAL_REQUIREMENTS : list (CVMetrics * string) :=
  [ (CONTRAST, "image"); (BLUR, "image"); (ORIENTATION, "image") ].

(** Arrow keeps every column of a table at the table's number of rows. *)
Definition table_wf (t : Table) : Prop :=
  forall c, c ∈ columns t -> length (cells c) = num_rows t.

Definition store_wf (w : World) : Prop :=
  match store w with
  | Some (Parquet t) => table_wf t
  | _ => True
  end.

(** [t'] has the columns of [t], in place and with their fields, each
    with the cells it had in [t] at the head of its cells in [t']. *)
Definition extends (t t' : Table) : Prop :=
  num_rows t <= num_rows t'
  /\ forall j c, columns t !! j = Some c ->
       exists c', columns t' !! j = Some c'
                  /\ field c' = field c
                  /\ cells c `prefix_of` cells c'.

(** An argument that [_set_image] passes over: neither a PIL image, nor
    an array, nor a string (and not [None]). *)
Definition passed_over (img : pyval) : bool :=
  match img with
  | PyBool _ | PyInt _ | PyFloat _ | PyObject _ => true
  | _ => false
  end.

(** The two shapes a rewritten table takes: with backfilled columns,
    and with one more row. *)
Definition backfill (t : Table) (added : list string) : Table :=
  mk_table
    (columns t ++ map (fun col => mk_column (pa_field col pa_float32)
                                            (repeat Null (num_rows t))) added)
    (num_rows t).

Definition with_row (t : Table) (cellrow : list Cell) : Table :=
  concat_tables t (from_arrays (map (fun c => [c]) cellrow) (schema t)).

End Model.

(** ** A sample runtime

    A small stand-in for the libraries, on which the model can be run.
    It covers decimal-digit strings, booleans, integers and floats for
    the builtins, and images of one colour for the image libraries;
    whatever it does not cover it rejects with [uncovered], and no
    example below depends on such a case. *)
Module Sample.

Definition uncovered {A} : Outcome A := Raise (LibraryError "uncovered").

#[export] Instance opaque : Opaque := {|
  buffer := list Z;
  pil_image := list nat * list Z;
|}.

(** [float(z)] for an integer: the nearest double, [OverflowError] past
    the largest one. *)
Definition float_of_Z (z : Z) : Outcome float :=
  match binary_normalize prec emax z 0 false with
  | S754_infinity _ => Raise (LibraryError "OverflowError")
  | f => Ok (SF2Prim f)
  end.

Definition digit_of (c : ascii) : option Z :=
  let n := nat_of_ascii c in
  if (48 <=? n)%nat && (n <=? 57)%nat then Some (Z.of_nat (n - 48)) else None.

Fixpoint digits (s : string) (acc : Z) : option Z :=
  match s with
  | EmptyString => Some acc
  | String c rest =>
      match digit_of c with
      | Some d => digits rest (10 * acc + d)
      | None => None
      end
  end.

Definition is_digits (s : string) : bool :=
  match s with
  | EmptyString => false
  | _ => bool_decide (is_Some (digits s 0))
  end.

Definition is_word (s : string) : bool :=
  forallb (fun c => let n := nat_of_ascii c in
                    ((65 <=? n)%nat && (n <=? 90)%nat)
                    || ((97 <=? n)%nat && (n <=? 122)%nat))
          (list_ascii_of_string s).

(** A string of digits is a number; a string of letters that is not
    [inf], [nan] or [infinity] in some case is refused by [int] and
    [float] with [ValueError]. *)
Definition parse (s : string) : Outcome Z :=
  if is_digits s then Ok (default 0%Z (digits s 0))
  else if is_word s
          && negb (bool_decide (lower s ∈ ["inf"; "nan"; "infinity"]))
       then Raise (ValueError "could not convert string")
       else uncovered.

Definition sample_int (v : pyval) : Outcome pyval :=
  match v with
  | PyInt z => Ok (PyInt z)
  | PyBool b => Ok (PyInt (if b then 1 else 0))
  | PyStr s => obind (parse s) (fun z => Ok (PyInt z))
  | PyNone => Raise (LibraryError "TypeError")
  | _ => uncovered
  end.

Definition sample_float (v : pyval) : Outcome pyval :=
  match v with
  | PyFloat f => Ok (PyFloat f)
  | PyInt z => obind (float_of_Z z) (fun f => Ok (PyFloat f))
  | PyBool b => Ok (PyFloat (if b then 1.0 else 0.0))
  | PyStr s => obind (obind (parse s) float_of_Z) (fun f => Ok (PyFloat f))
  | PyNone => Raise (LibraryError "TypeError")
  | _ => uncovered
  end.

Definition sample_bool (v : pyval) : Outcome pyval :=
  match v with
  | PyBool b => Ok (PyBool b)
  | PyInt z => Ok (PyBool (negb (Z.eqb z 0)))
  | PyStr s => Ok (PyBool (negb (String.eqb s "")))
  | PyNone => Ok (PyBool false)
  | _ => uncovered
  end.

Definition sample_str (v : pyval) : Outcome pyval :=
  match v with
  | PyStr s => Ok (PyStr s)
  | PyInt z => Ok (PyStr (pretty z))
  | PyBool b => Ok (PyStr (if b then "True" else "False"))
  | PyNone => Ok (PyStr "None")
  | _ => uncovered
  end.

Definition is_ascii (s : string) : bool :=
  forallb (fun c => (nat_of_ascii c <? 128)%nat) (list_ascii_of_string s).

Definition in_range (bits : nat) (signed : bool) (z : Z) : bool :=
  if signed
  then (- 2 ^ (Z.of_nat bits - 1) <=? z)%Z && (z <? 2 ^ (Z.of_nat bits - 1))%Z
  else (0 <=? z)%Z && (z <? 2 ^ Z.of_nat bits)%Z.

Definition sample_accepts (t : DataType) (v : pyval) : bool :=
  match t, v with
  | pa_string, PyStr s => is_ascii s
  | pa_float _, PyFloat _ => true
  | pa_bool, PyBool _ => true
  | pa_int bits signed, PyInt z => in_range bits signed z
  | _, _ => false
  end.

#[export] Instance builtins : Builtins := {|
  py_int := sample_int;
  py_float := sample_float;
  py_bool := sample_bool;
  py_str := sample_str;
  pa_accepts := sample_accepts;
  set_iter := elements;
  set_iter_perm := fun s => reflexivity (elements s);
|}.

(** An image all of whose samples are [c]. *)
Definition one_colour (px : list Z) : option Z :=
  match px with
  | [] => None
  | c :: rest => if forallb (Z.eqb c) rest then Some c else None
  end.

Definition on_one_colour {A} (a : ndarray) (k : Z -> Outcome A) : Outcome A :=
  match one_colour (pixels a) with
  | Some c => k c
  | None => uncovered
  end.

(** OpenCV refuses to read anything but three or four channels as RGB. *)
Definition sample_cvtColor (a : ndarray) : Outcome ndarray :=
  match shape a with
  | [h; w; 3] =>
      on_one_colour a (fun c => Ok (mk_ndarray [h; w] (repeat c (h * w))))
  | [_; _; 4] => uncovered
  | _ => Raise (LibraryError "cv2.error")
  end.

#[export] Instance image_lib : ImageLib := {|
  Image_open := fun path => Raise (FileNotFoundError path);
  np_array := fun i => Ok (mk_ndarray (fst i) (snd i));
  np_std := fun a => on_one_colour a (fun _ => Ok 0.0%float);
  np_mean := fun a => on_one_colour a float_of_Z;
  cv2_cvtColor_RGB2GRAY := sample_cvtColor;
  cv2_Laplacian_var := fun a => on_one_colour a (fun _ => Ok 0.0%float);
|}.

End Sample.

(** ** Sample inputs *)
Module Examples.
Import Sample.

Definition empty_world : World := mk_world None [].

Definition logger (enabled : list CVMetrics) : BaseLogger :=
  mk_logger "my_model" enabled "lookout_cv_logs".

(** A grey 2x2 picture, as a two-dimensional array and as an RGB array. *)
Definition grey_2d : ndarray := mk_ndarray [2; 2] [7; 7; 7; 7]%Z.
Definition grey_rgb : ndarray := mk_ndarray [2; 2; 3] (repeat 7%Z 12).

(** The call at the foot of [detection_logger.py], on an array. *)
Definition batman : gmap string pyval :=
  list_to_map
    [ ("image", PyArray grey_2d);
      ("pred_class", PyStr "batman");
      ("confidence", PyFloat 0.5);
      ("image_name", PyStr "test_image.jpg");
      ("bbox_x1", PyInt 5); ("bbox_y1", PyInt 10);
      ("bbox_x2", PyInt 50); ("bbox_y2", PyInt 60) ].

Definition nameless : gmap string pyval := <["image_name" := PyNone]> batman.
Definition bad_confidence : gmap string pyval :=
  <["confidence" := PyStr "abc"]> batman.
Definition no_bbox_y2 : gmap string pyval := delete "bbox_y2" batman.
Definition robin : gmap string pyval := <["pred_class" := PyStr "robin"]> batman.

(** The world after [DetectionLogger("my_model", [CONTRAST])] in an empty
    directory, and after one logged prediction. *)
Definition fresh_store : World :=
  history [Construct "my_model" (Some [CONTRAST]) "lookout_cv_logs"] empty_world.

Definition one_row_store : World :=
  history [Log (logger [CONTRAST]) batman] fresh_store.

Definition table_of (w : World) : Table :=
  match store w with
  | Some (Parquet t) => t
  | _ => mk_table [] 0
  end.

(** The files of two writer processes of one model. *)
Definition two_writers : Directory :=
  [ ("my_model_logs_101.parquet", Parquet (table_of one_row_store));
    ("my_model_logs_202.parquet",
     Parquet (table_of (history [Log (logger [CONTRAST]) robin] fresh_store))) ].

(** A file that is not a parquet table, and a table written by something
    else, with [pred_class] as its only column. *)
Definition garbage_world : World := mk_world (Some Garbage) [].

Definition foreign_store : World :=
  mk_world (Some (Parquet (mk_table
    [mk_column (pa_field "pred_class" pa_string) [Val (PyStr "cat")]] 1))) [].

(** The model's directory with one writer's file and a stray note. *)
Definition one_writer : Directory :=
  [ ("README.txt", Garbage);
    ("my_model_logs_101.parquet", Parquet (table_of one_row_store)) ].

(** The same call with no [image] argument. *)
Definition no_image : gmap string pyval := delete "image" batman.

End Examples.

(** * Properties *)

Section Properties.

Context {O : Opaque} {B : Builtins} {I : ImageLib}.

(** ** Dictionaries filled by a loop *)

Lemma foldl_insert_other {A V} (k : A -> string) (g : A -> V) (l : list A)
    (r : gmap string V) (key : string) :
  (forall a, a ∈ l -> k a <> key) ->
  foldl (fun r a => <[k a := g a]> r) r l !! key = r !! key.
Proof.
  revert r. induction l as [|x l IH]; intros r Hk; simpl; [done|].
  rewrite IH.
  - apply lookup_insert_ne. apply Hk. left.
  - intros a Ha. apply Hk. by right.
Qed.

Lemma foldl_insert_member {A V} (k : A -> string) (g : A -> V) (l : list A)
    (r : gmap string V) (a : A) :
  a ∈ l ->
  (forall a', a' ∈ l -> k a' = k a -> g a' = g a) ->
  foldl (fun r a => <[k a := g a]> r) r l !! k a = Some (g a).
Proof.
  revert r. induction l as [|x l IH] using rev_ind; intros r Ha Hg.
  - by apply elem_of_nil in Ha.
  - rewrite foldl_snoc. destruct (decide (k x = k a)) as [Heq | Hne].
    + rewrite <- Heq at 1. rewrite lookup_insert_eq. f_equal.
      apply Hg; [|done]. apply elem_of_app. right. by left.
    + rewrite lookup_insert_ne by done.
      apply elem_of_app in Ha. destruct Ha as [Ha | Ha].
      * apply IH; [done|]. intros a' Ha'. apply Hg, elem_of_app. by left.
      * apply list_elem_of_singleton in Ha. congruence.
Qed.

Lemma value_inj (m m' : CVMetrics) : value m = value m' -> m = m'.
Proof. destruct m, m'; vm_compute; congruence. Qed.

Lemma value_not_mandatory (m : CVMetrics) : value m ∉ _MANDATORY_FIELDS.
Proof.
  intros Hin. apply list_elem_of_In in Hin.
  destruct m; vm_compute in Hin; intuition discriminate.
Qed.

Lemma all_none_member (fields : list CVMetrics) (r : gmap string pyval) m :
  m ∈ fields -> all_none fields r !! value m = Some PyNone.
Proof.
  intros Hm. unfold all_none.
  apply (foldl_insert_member value (fun _ => PyNone) fields r m); auto.
Qed.

Lemma all_none_other (fields : list CVMetrics) (r : gmap string pyval) key :
  (forall m, m ∈ fields -> value m <> key) ->
  all_none fields r !! key = r !! key.
Proof.
  intros Hk. unfold all_none.
  by apply (foldl_insert_other value (fun _ => PyNone)).
Qed.

(** ** The metric loop *)

Lemma metric_step_run calc field w :
  metric_step calc field w
  = (Ok (metric_value calc field),
     mk_world (store w) (trace w ++ metric_events field)).
Proof.
  unfold metric_step, metric_value, metric_events, bind, attempt, ret.
  destruct (getattr _) as [method|]; simpl.
  - unfold call_method, bind, emit, lift, ret. simpl.
    destruct (method calc); reflexivity.
  - rewrite app_nil_r. by destruct w.
Qed.

Lemma metric_loop_run calc fields results w :
  metric_loop calc fields results w
  = (Ok (foldl (fun r f => <[value f := metric_value calc f]> r) results fields),
     mk_world (store w) (trace w ++ flat_map metric_events fields)).
Proof.
  revert results w. induction fields as [|f fields IH]; intros results w; simpl.
  - unfold ret. rewrite app_nil_r. by destruct w.
  - unfold bind. rewrite metric_step_run, IH. simpl. by rewrite app_assoc.
Qed.

Lemma all_none_lookup (fields : list CVMetrics) (r : gmap string pyval) key v :
  all_none fields r !! key = Some v ->
  (v = PyNone /\ exists m, m ∈ fields /\ key = value m) \/ r !! key = Some v.
Proof.
  unfold all_none. induction fields as [|x fields IH] using rev_ind; simpl.
  - by right.
  - rewrite foldl_snoc. destruct (decide (value x = key)) as [<- | Hne].
    + rewrite lookup_insert_eq. intros [= <-]. left. split; [done|].
      exists x. split; [|done]. apply elem_of_app. right. by left.
    + rewrite lookup_insert_ne by done. intros Hl.
      destruct (IH Hl) as [(-> & m & Hm & ->) | Hr]; [left | by right].
      split; [done|]. exists m. split; [|done]. apply elem_of_app. by left.
Qed.

Lemma calculate_image_metrics_run self img w :
  calculate_image_metrics self img w =
    if is_None img || bool_decide (enabled_metrics self = [])
    then (Ok (all_none (enabled_metrics self) ∅), w)
    else match _set_image img with
         | Raise _ =>
             (Ok (all_none (enabled_metrics self) ∅),
              mk_world (store w) (trace w ++ [EvConstruct]))
         | Ok a =>
             (Ok (foldl (fun r f => <[value f := metric_value (mk_calc a) f]> r)
                        ∅ (enabled_metrics self)),
              mk_world (store w)
                       (trace w ++ EvConstruct
                                   :: flat_map metric_events (enabled_metrics self)))
         end.
Proof.
  unfold calculate_image_metrics.
  destruct (is_None img || bool_decide (enabled_metrics self = [])); [done|].
  unfold bind, attempt, new_calculator, bind, emit, lift, ret. simpl.
  destruct (_set_image img) as [a|e]; [|done].
  rewrite metric_loop_run. simpl. by rewrite <- app_assoc.
Qed.

(** The trace does see the calculator being built on the slow path. *)
Lemma construction_is_traced self img w :
  img <> PyNone -> enabled_metrics self <> [] ->
  EvConstruct ∈ trace (snd (calculate_image_metrics self img w)).
Proof.
  intros Himg Hen. rewrite calculate_image_metrics_run.
  replace (is_None img) with false by (by destruct img).
  rewrite bool_decide_eq_false_2 by done. simpl.
  destruct (_set_image img); simpl; apply elem_of_app; right; left.
Qed.

(** C8. With no image ([image = None]) and a non-empty list of enabled
    metrics, [calculate_image_metrics] returns, without raising, a
    dictionary whose keys are the enabled metrics' names, each mapped to
    [None]; the world is left exactly as it was, so the trace gains no
    event: [ImageMetricsCalculator] is not constructed and no method of it
    is called. *)
Theorem no_image_fast_path (self : BaseLogger) (w : World) :
  enabled_metrics self <> [] ->
  exists results,
    calculate_image_metrics self PyNone w = (Ok results, w)
    /\ (forall m, m ∈ enabled_metrics self -> results !! value m = Some PyNone)
    /\ (forall key v, results !! key = Some v ->
          v = PyNone /\ exists m, m ∈ enabled_metrics self /\ key = value m).
Proof.
  intros _. exists (all_none (enabled_metrics self) ∅).
  split; [reflexivity|]. split.
  - intros m Hm. by apply all_none_member.
  - intros key v Hl. apply all_none_lookup in Hl.
    destruct Hl as [Hl | Hl]; [done|]. by rewrite lookup_empty in Hl.
Qed.

(** C9. Whatever the image, a call of [calculate_image_metrics] with
    ORIENTATION or BBOX_RATIO among the enabled metrics returns a
    dictionary in which that metric is [None]: the dispatch looks for a
    method named [calculate_orientation], resp. [calculate_bbox_ratio],
    and the calculator has neither, only [calculate_orientation_type]. *)
Theorem orientation_and_bbox_ratio_are_null
    (self : BaseLogger) (img : pyval) (w : World) (m : CVMetrics) :
  m = ORIENTATION \/ m = BBOX_RATIO ->
  m ∈ enabled_metrics self ->
  getattr ("calculate_" +:+ value m) = None
  /\ is_Some (getattr "calculate_orientation_type")
  /\ exists results w',
       calculate_image_metrics self img w = (Ok results, w')
       /\ results !! value m = Some PyNone.
Proof.
  intros Hm Hin.
  assert (Hget : getattr ("calculate_" +:+ value m) = None)
    by (destruct Hm as [-> | ->]; reflexivity).
  split; [done|]. split; [by eexists|].
  rewrite calculate_image_metrics_run.
  destruct (is_None img || bool_decide (enabled_metrics self = [])).
  { eexists _, _. split; [reflexivity|]. by apply all_none_member. }
  destruct (_set_image img) as [a|e].
  - eexists _, _. split; [reflexivity|].
    rewrite (foldl_insert_member value (metric_value (mk_calc a))); [|done|].
    + unfold metric_value. by rewrite Hget.
    + intros m' _ Heq. by rewrite (value_inj _ _ Heq).
  - eexists _, _. split; [reflexivity|]. by apply all_none_member.
Qed.

(** C6. [calculate_image_metrics] never raises: for every image and
    every world it returns a dictionary.  If building the calculator
    raises, every enabled metric is [None] in it.  Otherwise every enabled
    metric that has a method is settled by its own method alone: [None]
    when that method raises, and the float the method returns when it
    returns, whatever happens to the other metrics of the call. *)
Theorem metrics_never_raise (self : BaseLogger) (img : pyval) (w : World) :
  exists results w',
    calculate_image_metrics self img w = (Ok results, w')
    /\ (forall e, _set_image img = Raise e ->
          forall m, m ∈ enabled_metrics self -> results !! value m = Some PyNone)
    /\ (forall a, img <> PyNone -> _set_image img = Ok a ->
          forall m method,
            m ∈ enabled_metrics self ->
            getattr ("calculate_" +:+ value m) = Some method ->
            (forall e, method (mk_calc a) = Raise e ->
               results !! value m = Some PyNone)
            /\ (forall v, method (mk_calc a) = Ok v ->
                  results !! value m = Some (PyFloat v))).
Proof.
  rewrite calculate_image_metrics_run.
  destruct (is_None img) eqn:Hnone.
  { simpl. eexists _, _. split; [reflexivity|]. split.
    - intros e _ m Hm. by apply all_none_member.
    - intros a Himg. by destruct img. }
  destruct (bool_decide (enabled_metrics self = [])) eqn:Hen; simpl.
  { apply bool_decide_eq_true_1 in Hen. rewrite Hen.
    eexists _, _. split; [reflexivity|]. split.
    - intros e _ m Hm. by apply elem_of_nil in Hm.
    - intros a _ _ m method Hm. by apply elem_of_nil in Hm. }
  destruct (_set_image img) as [a|e].
  - eexists _, _. split; [reflexivity|]. split; [done|].
    intros a' _ [= <-] m method Hm Hget.
    rewrite (foldl_insert_member value (metric_value (mk_calc a))); [|done|].
    2: { intros m' _ Heq. by rewrite (value_inj _ _ Heq). }
    unfold metric_value. rewrite Hget.
    split; intros ? ->; reflexivity.
  - eexists _, _. split; [reflexivity|]. split; [|done].
    intros _ _ m Hm. by apply all_none_member.
Qed.

(** ** Validation *)

Lemma mandatory_loop_missing fields kwargs data :
  (exists f, f ∈ fields /\ kwargs !! f = None) ->
  exists f, f ∈ fields /\ kwargs !! f = None
            /\ mandatory_loop fields kwargs data
               = Raise (ValueError ("Missing mandatory field: " +:+ f)).
Proof.
  revert data. induction fields as [|x fields IH]; intros data (f & Hf & Hk).
  - by apply elem_of_nil in Hf.
  - simpl. destruct (kwargs !! x) as [v|] eqn:Hx.
    + apply elem_of_cons in Hf. destruct Hf as [-> | Hf]; [congruence|].
      destruct (IH (<[x:=v]> data)) as (f' & Hf' & Hk' & Hr); [by eauto|].
      exists f'. split; [by right|]. done.
    + exists x. split; [by left|]. done.
Qed.

(** C5. When at least one mandatory key is absent from the arguments,
    [log_prediction] raises [ValueError] naming an absent mandatory field,
    and it does so with the world untouched: the store (and so its row
    count) is the one before the call, and the trace has gained no event,
    neither of the calculator nor of a read or write of the file. *)
Theorem missing_mandatory_field_rejected
    (self : BaseLogger) (kwargs : gmap string pyval) (w : World) :
  (exists f, f ∈ _MANDATORY_FIELDS /\ kwargs !! f = None) ->
  exists f, f ∈ _MANDATORY_FIELDS /\ kwargs !! f = None
    /\ log_prediction self kwargs w
       = (Raise (ValueError ("Missing mandatory field: " +:+ f)), w)
    /\ store_rows (snd (log_prediction self kwargs w)) = store_rows w.
Proof.
  intros Hmiss.
  destruct (mandatory_loop_missing _ _ ∅ Hmiss) as (f & Hf & Hk & Hr).
  exists f. split; [done|]. split; [done|].
  unfold log_prediction, bind, lift. rewrite Hr. done.
Qed.

(** ** Appending a row *)

Lemma None_or_not (v : pyval) : v = PyNone \/ v <> PyNone.
Proof. destruct v; auto. Qed.

Lemma column_array_eq f v :
  column_array f v
  = obind (pa_scalar (type f) (if is_None v then PyNone else coerce (type f) v))
          (fun c => Ok [c]).
Proof.
  unfold column_array.
  destruct v; simpl; try done; by destruct (pa_scalar _ _).
Qed.

Lemma pa_scalar_cell t v cell :
  pa_scalar t v = Ok cell ->
  (v = PyNone -> cell = Null) /\ (v <> PyNone -> cell = Val v).
Proof.
  unfold pa_scalar. destruct v; try (destruct (pa_accepts _ _)); intros [= <-];
    by split.
Qed.

(** The cell that one column receives. *)
Lemma column_array_cell f v a :
  column_array f v = Ok a ->
  exists cell, a = [cell]
    /\ (v = PyNone -> cell = Null)
    /\ (forall e, convert (type f) v = Raise e -> cell = Null)
    /\ (forall v', v <> PyNone -> convert (type f) v = Ok v' -> v' <> PyNone ->
          cell = Val v').
Proof.
  rewrite column_array_eq.
  destruct (pa_scalar _ _) as [cell|] eqn:Hs; simpl; [|done].
  intros [= <-]. exists cell. split; [done|].
  apply pa_scalar_cell in Hs. destruct Hs as [Hnull Hval].
  destruct (None_or_not v) as [-> | Hv].
  { simpl in *. repeat split; auto. by intros. }
  replace (is_None v) with false in * by (by destruct v).
  unfold coerce in *. split; [done|]. split.
  - intros e He. rewrite He in Hnull. auto.
  - intros v' _ Hc Hv'. rewrite Hc in Hval. auto.
Qed.


Lemma column_arrays_cells sch : forall row arrays,
  length row = length sch ->
  column_arrays sch row = Ok arrays ->
  exists cellrow,
    arrays = map (fun c => [c]) cellrow
    /\ length cellrow = length sch
    /\ forall j f v cell,
         sch !! j = Some f -> row !! j = Some v -> cellrow !! j = Some cell ->
         (v = PyNone -> cell = Null)
         /\ (forall e, convert (type f) v = Raise e -> cell = Null)
         /\ (forall v', v <> PyNone -> convert (type f) v = Ok v' ->
               v' <> PyNone -> cell = Val v').
Proof.
  induction sch as [|f sch IH]; intros row arrays Hlen Hrun.
  - simpl in Hrun. injection Hrun as <-. exists []. by repeat split.
  - destruct row as [|v row]; [done|]. simpl in Hrun, Hlen.
    destruct (column_array f v) as [a|] eqn:Ha; [|done]. simpl in Hrun.
    destruct (column_arrays sch row) as [rest|] eqn:Hrest; [|done].
    simpl in Hrun. injection Hrun as <-.
    destruct (column_array_cell _ _ _ Ha) as (cell & -> & Hcell).
    destruct (IH row rest) as (cellrow & -> & Hl & Hrow); [lia|done|].
    exists (cell :: cellrow). split; [done|]. split; [simpl; lia|].
    intros [|j] f' v' cell' Hf Hv Hc; simpl in *.
    + injection Hf as <-. injection Hv as <-. injection Hc as <-. done.
    + by eapply Hrow.
Qed.


(** Concatenating a one-row table gives every column one more cell. *)
Lemma concat_one_row (t : Table) (cellrow : list Cell) :
  length cellrow = length (columns t) ->
  columns (concat_tables t (from_arrays (map (fun c => [c]) cellrow) (schema t)))
  = zip_with (fun c cell => mk_column (field c) (cells c ++ [cell]))
             (columns t) cellrow.
Proof.
  unfold concat_tables, from_arrays, schema. simpl.
  generalize (columns t). intros cols. revert cellrow.
  induction cols as [|c cols IH]; intros [|cell cellrow] Hlen; try done.
  simpl in *. f_equal. apply IH. lia.
Qed.

Lemma schema_zip_cells (cols : list Column) (cellrow : list Cell) :
  length cellrow = length cols ->
  map field (zip_with (fun c cell => mk_column (field c) (cells c ++ [cell]))
                      cols cellrow)
  = map field cols.
Proof.
  revert cellrow. induction cols as [|c cols IH]; intros [|cell cellrow] Hlen;
    try done.
  simpl in *. f_equal. apply IH. lia.
Qed.

Lemma save_to_parquet_run self data w t :
  store w = Some (Parquet t) ->
  save_to_parquet self data w =
    match column_arrays (schema t) (data_row data (schema t)) with
    | Ok arrays =>
        (Ok tt,
         mk_world (Some (Parquet (concat_tables t (from_arrays arrays (schema t)))))
                  (trace w ++ [EvRead; EvWrite]))
    | Raise e => (Raise e, mk_world (store w) (trace w ++ [EvRead]))
    end.
Proof.
  intros Hs. unfold save_to_parquet, bind, attempt, read_table, ret, lift.
  rewrite Hs. simpl.
  destruct (column_arrays _ _); [|done].
  unfold write_table. simpl. by rewrite <- app_assoc.
Qed.

Lemma save_to_parquet_unreadable self data w :
  (forall t, store w <> Some (Parquet t)) ->
  save_to_parquet self data w
  = (Raise (IOError "Failed to read parquet file"),
     mk_world (store w) (trace w ++ [EvRead])).
Proof.
  intros Hs. unfold save_to_parquet, bind, attempt, read_table, raise.
  destruct (store w) as [[|t]|]; simpl; try done. by destruct (Hs t).
Qed.

Lemma data_row_lookup data (sch : list Field) j f :
  sch !! j = Some f ->
  data_row data sch !! j = Some (default PyNone (data !! name f)).
Proof.
  intros Hf. unfold data_row, names.
  rewrite !list_lookup_fmap. by rewrite Hf.
Qed.

Lemma save_to_parquet_cells self data w t w' :
  store w = Some (Parquet t) ->
  save_to_parquet self data w = (Ok tt, w') ->
  exists t' row,
    store w' = Some (Parquet t')
    /\ schema t' = schema t
    /\ length row = length (schema t)
    /\ columns t'
       = zip_with (fun c cell => mk_column (field c) (cells c ++ [cell]))
                  (columns t) row
    /\ forall j f cell,
         schema t !! j = Some f -> row !! j = Some cell ->
         let v := default PyNone (data !! name f) in
         (v = PyNone -> cell = Null)
         /\ (forall e, convert (type f) v = Raise e -> cell = Null)
         /\ (forall v', v <> PyNone -> convert (type f) v = Ok v' ->
               v' <> PyNone -> cell = Val v').
Proof.
  intros Hs. rewrite (save_to_parquet_run _ _ _ _ Hs).
  assert (Hlen : length (data_row data (schema t)) = length (schema t))
    by (unfold data_row, names; by rewrite !length_map).
  intros Hrun.
  destruct (column_arrays _ _) as [arrays|] eqn:Harr; [|done].
  injection Hrun as <-.
  destruct (column_arrays_cells _ _ _ Hlen Harr) as (row & -> & Hrow & Hcells).
  assert (Hrow' : length row = length (columns t))
    by (rewrite Hrow; unfold schema; by rewrite length_map).
  eexists _, row. split; [reflexivity|].
  split; [|split; [done|split; [by apply concat_one_row|]]].
  - unfold schema at 1. rewrite concat_one_row by done.
    by apply schema_zip_cells.
  - intros j f cell Hf Hc. eapply Hcells; [done| |done].
    by apply data_row_lookup.
Qed.



(** ** Logging a prediction *)

Lemma mandatory_loop_ok fields : forall kwargs data d,
  mandatory_loop fields kwargs data = Ok d ->
  (forall f, f ∈ fields -> is_Some (kwargs !! f) /\ d !! f = kwargs !! f)
  /\ (forall key, key ∉ fields -> d !! key = data !! key).
Proof.
  induction fields as [|x fields IH]; intros kwargs data d Hrun; simpl in Hrun.
  - injection Hrun as <-. split; [|done]. intros f Hf. by apply elem_of_nil in Hf.
  - destruct (kwargs !! x) as [v|] eqn:Hx; [|done].
    destruct (IH _ _ _ Hrun) as [Hin Hout]. split.
    + intros f Hf. destruct (decide (f ∈ fields)) as [Hf' | Hf']; [by apply Hin|].
      apply elem_of_cons in Hf. destruct Hf as [-> | Hf]; [|done].
      rewrite (Hout _ Hf'), lookup_insert_eq, Hx. by split.
    + intros key Hkey. apply not_elem_of_cons in Hkey. destruct Hkey as [Hne Hkey].
      rewrite (Hout _ Hkey). by apply lookup_insert_ne.
Qed.

(** The metrics dictionary holds nothing but metric names. *)
Lemma computed_metrics_keys self img w key :
  (forall m, value m <> key) ->
  exists results w',
    calculate_image_metrics self img w = (Ok results, w')
    /\ store w' = store w
    /\ results !! key = None.
Proof.
  intros Hkey. rewrite calculate_image_metrics_run.
  assert (Hnone : all_none (enabled_metrics self) ∅ !! key = None).
  { rewrite all_none_other; [apply lookup_empty|]. intros m _. apply Hkey. }
  destruct (is_None img || bool_decide (enabled_metrics self = [])).
  { by eexists _, _. }
  destruct (_set_image img) as [a|e]; [|by eexists _, _].
  eexists _, _. split; [reflexivity|]. split; [done|].
  rewrite (foldl_insert_other value (metric_value (mk_calc a)));
    [apply lookup_empty|].
  intros m _. apply Hkey.
Qed.

Lemma log_prediction_run self kwargs w d :
  mandatory_loop _MANDATORY_FIELDS kwargs ∅ = Ok d ->
  exists computed w1,
    calculate_image_metrics self (default PyNone (kwargs !! "image")) w
    = (Ok computed, w1)
    /\ store w1 = store w
    /\ (forall f, f ∈ _MANDATORY_FIELDS -> (computed ∪ d) !! f = kwargs !! f)
    /\ log_prediction self kwargs w = save_to_parquet self (computed ∪ d) w1.
Proof.
  intros Hd.
  destruct (computed_metrics_keys self (default PyNone (kwargs !! "image")) w
              "" ltac:(by intros [])) as (computed & w1 & Hrun & Hst & _).
  exists computed, w1. split; [done|]. split; [done|]. split.
  - intros f Hf.
    destruct (computed_metrics_keys self (default PyNone (kwargs !! "image"))
                w f) as (c' & w' & Hrun' & _ & Hnone).
    { intros m <-. by apply (value_not_mandatory m). }
    rewrite Hrun in Hrun'. injection Hrun' as <- <-.
    rewrite lookup_union_r by done.
    by apply (mandatory_loop_ok _ _ _ _ Hd).
  - unfold log_prediction, bind, lift. by rewrite Hd, Hrun.
Qed.

(** C1, as the code has it.  A successful [log_prediction] finds every
    mandatory key among its arguments and gives every column of the
    store one new cell.  In a column named after a mandatory field the
    new cell is null when the caller passed [None] for the field, null
    when the value passed fails conversion to the column's type, and the
    converted value (so not null) in every other case. *)
Theorem mandatory_cells_follow_arguments
    (self : BaseLogger) (kwargs : gmap string pyval) (w w' : World) :
  log_prediction self kwargs w = (Ok tt, w') ->
  exists t t' row,
    store w = Some (Parquet t)
    /\ store w' = Some (Parquet t')
    /\ length row = length (schema t)
    /\ columns t'
       = zip_with (fun c cell => mk_column (field c) (cells c ++ [cell]))
                  (columns t) row
    /\ (forall f, f ∈ _MANDATORY_FIELDS -> is_Some (kwargs !! f))
    /\ forall j f cell,
         schema t !! j = Some f -> row !! j = Some cell ->
         name f ∈ _MANDATORY_FIELDS ->
         exists v,
           kwargs !! name f = Some v
           /\ (v = PyNone -> cell = Null)
           /\ (forall e, convert (type f) v = Raise e -> cell = Null)
           /\ (forall v', v <> PyNone -> convert (type f) v = Ok v' ->
                 v' <> PyNone -> cell = Val v').
Proof.
  intros Hrun.
  destruct (mandatory_loop _MANDATORY_FIELDS kwargs ∅) as [d|e] eqn:Hd.
  2: { unfold log_prediction, bind, lift in Hrun. by rewrite Hd in Hrun. }
  destruct (log_prediction_run self kwargs w d Hd)
    as (computed & w1 & _ & Hst & Hdata & Heq).
  rewrite Heq in Hrun.
  destruct (store w1) as [[|t]|] eqn:Hs1.
  1,3: rewrite save_to_parquet_unreadable in Hrun by (rewrite Hs1; congruence);
       discriminate.
  destruct (save_to_parquet_cells self (computed ∪ d) w1 t w' Hs1 Hrun)
    as (t' & row & Hs' & _ & Hlen & Hcols & Hcells).
  exists t, t', row. split; [congruence|]. split; [done|].
  split; [done|]. split; [done|]. split.
  - intros f Hf. by apply (mandatory_loop_ok _ _ _ _ Hd).
  - intros j f cell Hf Hc Hm.
    destruct (mandatory_loop_ok _ _ _ _ Hd) as [Hin _].
    destruct (Hin _ Hm) as [[v Hv] _]. exists v. split; [done|].
    specialize (Hcells j f cell Hf Hc). simpl in Hcells.
    rewrite (Hdata _ Hm), Hv in Hcells. exact Hcells.
Qed.

(** ** Schema evolution *)

Lemma append_columns_run (cols : list string) : forall t : Table,
  foldl (fun t col => append_column t col (repeat Null (num_rows t))) t cols
  = mk_table
      (columns t
       ++ map (fun col => mk_column (pa_field col pa_float32)
                                    (repeat Null (num_rows t))) cols)
      (num_rows t).
Proof.
  induction cols as [|col cols IH]; intros t; simpl.
  - rewrite app_nil_r. by destruct t.
  - rewrite IH. simpl. by rewrite <- app_assoc.
Qed.

(** What [_evolve_schema] does to a readable store: it appends one
    float32 column of nulls per name that the desired schema has and the
    file lacks, each such name once, and touches nothing else. *)
Lemma evolve_schema_columns self w t :
  store w = Some (Parquet t) ->
  exists w' added,
    _evolve_schema self w = (Ok tt, w')
    /\ store w'
       = Some (Parquet
           (mk_table
              (columns t
               ++ map (fun col => mk_column (pa_field col pa_float32)
                                            (repeat Null (num_rows t))) added)
              (num_rows t)))
    /\ NoDup added
    /\ forall n, n ∈ added <->
         n ∈ names (_create_schema (enabled_metrics self))
         /\ n ∉ names (schema t).
Proof.
  intros Hs. unfold _evolve_schema, bind, read_table. rewrite Hs.
  set (missing := (list_to_set (names (_create_schema (enabled_metrics self)))
                   ∖ list_to_set (names (schema t)) : gset string)).
  assert (Hmiss : forall n, n ∈ missing <->
            n ∈ names (_create_schema (enabled_metrics self))
            /\ n ∉ names (schema t)).
  { intros n. unfold missing.
    rewrite elem_of_difference, !elem_of_list_to_set. done. }
  destruct (bool_decide (missing = ∅)) eqn:Hempty.
  - apply bool_decide_eq_true_1 in Hempty.
    eexists _, []. split; [reflexivity|]. simpl.
    split; [|split; [constructor|]].
    + rewrite app_nil_r. by destruct t.
    + intros n. rewrite <- Hmiss, Hempty. split; intros Hn.
      * by apply elem_of_nil in Hn.
      * by apply elem_of_empty in Hn.
  - eexists _, (set_iter missing). split; [reflexivity|]. simpl.
    split; [by rewrite append_columns_run|]. split.
    + rewrite set_iter_perm. apply NoDup_elements.
    + intros n. rewrite <- Hmiss, set_iter_perm. apply elem_of_elements.
Qed.

Lemma schema_append (cols added : list Column) :
  map field (cols ++ added) = map field cols ++ map field added.
Proof. apply map_app. Qed.

Lemma step_schema_prefix (op : Op) (w : World) (s : list Field) :
  store_schema w = Some s ->
  exists s', store_schema (step op w) = Some (s ++ s').
Proof.
  unfold store_schema. intros Hs.
  destruct (store w) as [[|t]|] eqn:Hst; try done. injection Hs as <-.
  destruct op as [model enabled dir | self kwargs]; simpl.
  - unfold __init__, bind, path_exists. rewrite Hst. simpl.
    set (w1 := mk_world (Some (Parquet t)) (trace w ++ [EvExists])).
    destruct (evolve_schema_columns
                (mk_logger model (default [] enabled) dir) w1 t eq_refl)
      as (w' & added & -> & Hs' & _). simpl. rewrite Hs'.
    eexists. unfold schema. simpl. by rewrite map_app.
  - destruct (mandatory_loop _MANDATORY_FIELDS kwargs ∅) as [d|e] eqn:Hd.
    2: { unfold log_prediction, bind, lift. rewrite Hd. simpl. rewrite Hst.
         exists []. by rewrite app_nil_r. }
    destruct (log_prediction_run self kwargs w d Hd)
      as (computed & w1 & _ & Hst1 & _ & ->).
    rewrite Hst in Hst1.
    rewrite (save_to_parquet_run _ _ _ _ Hst1).
    destruct (column_arrays _ _) as [arrays|] eqn:Harr; simpl.
    + assert (Hlen : length (data_row (computed ∪ d) (schema t))
                     = length (schema t))
        by (unfold data_row, names; by rewrite !length_map).
      destruct (column_arrays_cells _ _ _ Hlen Harr) as (row & -> & Hrow & _).
      assert (Hrow' : length row = length (columns t))
        by (rewrite Hrow; unfold schema; by rewrite length_map).
      exists []. rewrite app_nil_r. f_equal. unfold schema at 1.
      rewrite concat_one_row by done. by apply schema_zip_cells.
    + rewrite Hst1. exists []. by rewrite app_nil_r.
Qed.

Lemma history_schema_prefix (ops : list Op) : forall (w : World) (s : list Field),
  store_schema w = Some s ->
  exists s', store_schema (history ops w) = Some (s ++ s').
Proof.
  induction ops as [|op ops IH]; intros w s Hs; simpl.
  - exists []. by rewrite app_nil_r.
  - destruct (step_schema_prefix op w s Hs) as [s1 Hs1].
    destruct (IH _ _ Hs1) as [s2 Hs2]. exists (s1 ++ s2).
    by rewrite app_assoc.
Qed.

(** C2. Schema reconciliation only adds columns.  On a readable store
    [_evolve_schema] returns normally and the file it leaves has all the
    columns of the file it found, with their fields (name and type) and in
    their order, followed by the added columns; each added column is a
    float32 column named after a field of the desired schema that the
    file lacked, and a column of the file that the desired schema lacks
    stays.  Hence along any history of logger constructions (with any
    enabled metrics) and logged predictions, the schema of the store at
    the start is a prefix of its schema at the end, so the column set
    never shrinks. *)
Theorem schema_only_grows
    (self : BaseLogger) (w : World) (t : Table) (ops : list Op) :
  store w = Some (Parquet t) ->
  (exists w' t' added,
     _evolve_schema self w = (Ok tt, w')
     /\ store w' = Some (Parquet t')
     /\ columns t' = columns t ++ added
     /\ schema t' = schema t ++ map field added
     /\ forall c, c ∈ added ->
          type (field c) = pa_float32
          /\ name (field c) ∈ names (_create_schema (enabled_metrics self))
          /\ name (field c) ∉ names (schema t))
  /\ (exists s',
        store_schema (history ops w) = Some (schema t ++ s')
        /\ forall n, n ∈ names (schema t) -> n ∈ names (schema t ++ s')).
Proof.
  intros Hs. split.
  - destruct (evolve_schema_columns self w t Hs)
      as (w' & added & Hrun & Hs' & _ & Hadded).
    eexists w', _, _. split; [done|]. split; [done|]. simpl.
    split; [done|]. split; [apply schema_append|].
    intros c Hc. apply list_elem_of_fmap in Hc. destruct Hc as (n & -> & Hn).
    simpl. split; [done|]. by apply Hadded.
  - destruct (history_schema_prefix ops w (schema t)) as [s' Hs'].
    { unfold store_schema. by rewrite Hs. }
    exists s'. split; [done|]. intros n Hn. unfold names.
    rewrite map_app. apply elem_of_app. by left.
Qed.

Lemma table_rows_append (t : Table) (added : list Column) :
  (forall c, c ∈ added -> cells c = repeat Null (num_rows t)) ->
  table_rows (mk_table (columns t ++ added) (num_rows t))
  = map (fun r => r ++ repeat Null (length added)) (table_rows t).
Proof.
  intros Hnull. unfold table_rows. simpl. rewrite map_map.
  apply map_ext. intros i. unfold table_row. simpl. rewrite map_app. f_equal.
  clear -Hnull. induction added as [|c added IH]; [done|]. simpl. f_equal.
  - rewrite (Hnull c) by left. generalize (num_rows t). clear. intros n.
    revert i. induction n as [|n IH]; intros [|i]; simpl; auto.
  - apply IH. intros c' Hc'. apply Hnull. by right.
Qed.

(** C3. When the desired schema has a field that a readable store of
    [n] rows lacks, [_evolve_schema] returns normally and rewrites the
    file: at least one column is added, the table still has [n] rows,
    the old columns keep their cells, every added column holds [n]
    nulls, and so every row of the old table reappears followed by one
    null per added column. *)
Theorem backfill_is_null (self : BaseLogger) (w : World) (t : Table) :
  store w = Some (Parquet t) ->
  (exists n, n ∈ names (_create_schema (enabled_metrics self))
             /\ n ∉ names (schema t)) ->
  exists w' t' added,
    _evolve_schema self w = (Ok tt, w')
    /\ store w' = Some (Parquet t')
    /\ added <> []
    /\ columns t' = columns t ++ added
    /\ num_rows t' = num_rows t
    /\ (forall c, c ∈ added -> cells c = repeat Null (num_rows t))
    /\ table_rows t'
       = map (fun r => r ++ repeat Null (length added)) (table_rows t).
Proof.
  intros Hs (n & Hn & Hn').
  destruct (evolve_schema_columns self w t Hs)
    as (w' & added & Hrun & Hs' & _ & Hadded).
  assert (Hnull : forall c,
            c ∈ map (fun col => mk_column (pa_field col pa_float32)
                                          (repeat Null (num_rows t))) added ->
            cells c = repeat Null (num_rows t)).
  { intros c Hc. apply list_elem_of_fmap in Hc. by destruct Hc as (? & -> & _). }
  eexists w', _, _. split; [done|]. split; [done|]. simpl. split.
  - intros Hnil. apply map_eq_nil in Hnil.
    assert (Hin : n ∈ added) by (by apply Hadded).
    rewrite Hnil in Hin. by apply elem_of_nil in Hin.
  - split; [done|]. split; [done|]. split; [done|].
    by apply table_rows_append.
Qed.

(** ** The analytics consumer *)

(** C10, as the code has it.  When the glob over the model's directory
    matches at least one file, [_load_data] reads the first match and
    nothing else: if that file is a readable table, the loaded frame is
    that table's columns and rows; if it is not, the call raises
    [IOError].  So with exactly one match every matched file's rows are
    loaded. *)
Theorem load_data_reads_first_match
    (dir : Directory) (first : string * File) (rest : Directory) :
  glob_parquet dir = first :: rest ->
  (forall t, snd first = Parquet t ->
     _load_data dir = Ok (to_pandas t)
     /\ (rest = [] ->
         forall e t', e ∈ glob_parquet dir -> snd e = Parquet t' ->
           forall r, r ∈ table_rows t' ->
             r ∈ df_rows (to_pandas t)))
  /\ (snd first = Garbage ->
      _load_data dir = Raise (IOError "Failed to load data from parquet file")).
Proof.
  intros Hglob. unfold _load_data. rewrite Hglob. split.
  - intros t Ht. rewrite Ht. simpl. split; [done|].
    intros -> e t' He Ht' r Hr. apply list_elem_of_singleton in He. subst e.
    rewrite Ht in Ht'. by injection Ht' as <-.
  - by intros ->.
Qed.

(** C7. For every list of enabled metrics, [_create_schema] returns
    the seven mandatory fields in their fixed order, each typed string
    when its name contains "name" or "class" (that is [image_name] and
    [pred_class]) and float32 otherwise, followed by exactly one float32
    field per element of the list, named by the metric's value
    ([contrast], [blur], [orientation], [bbox_ratio]) and in the order of
    the list. *)
Theorem create_schema_layout (enabled : list CVMetrics) :
  _create_schema enabled
  = [ pa_field "image_name" pa_string; pa_field "pred_class" pa_string;
      pa_field "confidence" pa_float32;
      pa_field "bbox_x1" pa_float32; pa_field "bbox_y1" pa_float32;
      pa_field "bbox_x2" pa_float32; pa_field "bbox_y2" pa_float32 ]
    ++ map (fun m => pa_field (value m) pa_float32) enabled
  /\ _create_schema enabled
     = map (fun n => pa_field n (if str_in "name" n || str_in "class" n
                                 then pa_string else pa_float32))
           [ "image_name"; "pred_class"; "confidence";
             "bbox_x1"; "bbox_y1"; "bbox_x2"; "bbox_y2" ]
       ++ map (fun m => pa_field (value m) pa_float32) enabled
  /\ length (_create_schema enabled) = 7 + length enabled
  /\ map value [CONTRAST; BLUR; ORIENTATION; BBOX_RATIO]
     = ["contrast"; "blur"; "orientation"; "bbox_ratio"].
Proof.
  repeat split; try reflexivity.
  unfold _create_schema. by rewrite length_app, !length_map.
Qed.

(** * Further properties of the code *)

(** ** The metric calculator and its dispatch *)

Lemma foldl_insert_is_Some {A V} (k : A -> string) (g : A -> V) (l : list A) :
  forall (r : gmap string V) (key : string),
    is_Some (foldl (fun r a => <[k a := g a]> r) r l !! key)
    <-> (exists a, a ∈ l /\ k a = key) \/ is_Some (r !! key).
Proof.
  induction l as [|x l IH]; intros r key; simpl.
  - split; [by right|]. intros [(a & Ha & _) | Hr]; [|done].
    by apply elem_of_nil in Ha.
  - rewrite IH. split.
    + intros [(a & Ha & Hk) | Hr].
      * left. exists a. split; [by right | done].
      * destruct (decide (k x = key)) as [Hx | Hx].
        -- left. exists x. split; [by left | done].
        -- right. by rewrite lookup_insert_ne in Hr.
    + intros [(a & Ha & Hk) | Hr].
      * apply elem_of_cons in Ha. destruct Ha as [-> | Ha].
        -- right. rewrite Hk, lookup_insert_eq. by eexists.
        -- left. by exists a.
      * right. destruct (decide (k x = key)) as [<- | Hx].
        -- rewrite lookup_insert_eq. by eexists.
        -- by rewrite lookup_insert_ne.
Qed.

Lemma metric_events_calls (m : CVMetrics) (ev : Event) :
  ev ∈ metric_events m ->
  ev = EvCall "calculate_contrast" \/ ev = EvCall "calculate_blur".
Proof.
  intros Hev. apply list_elem_of_In in Hev.
  destruct m; vm_compute in Hev; intuition.
Qed.

Lemma flat_metric_events_calls (fields : list CVMetrics) (ev : Event) :
  ev ∈ flat_map metric_events fields ->
  ev = EvCall "calculate_contrast" \/ ev = EvCall "calculate_blur".
Proof.
  intros Hev. apply list_elem_of_In, in_flat_map in Hev.
  destruct Hev as (m & _ & Hm). apply (metric_events_calls m).
  by apply list_elem_of_In.
Qed.

(** The events of one call of [calculate_image_metrics]. *)
Lemma calculate_image_metrics_events self img w :
  exists results evs,
    calculate_image_metrics self img w
    = (Ok results, mk_world (store w) (trace w ++ evs))
    /\ (is_None img || bool_decide (enabled_metrics self = []) = true ->
        evs = [])
    /\ (is_None img || bool_decide (enabled_metrics self = []) = false ->
        exists calls,
          evs = EvConstruct :: calls
          /\ forall ev, ev ∈ calls ->
               ev = EvCall "calculate_contrast" \/ ev = EvCall "calculate_blur").
Proof.
  rewrite calculate_image_metrics_run.
  destruct (is_None img || bool_decide (enabled_metrics self = [])).
  { eexists _, []. rewrite app_nil_r. split; [by destruct w|]. by split. }
  destruct (_set_image img) as [a|e].
  - eexists _, _. split; [reflexivity|]. split; [done|]. intros _.
    eexists. split; [reflexivity|]. apply flat_metric_events_calls.
  - eexists _, [EvConstruct]. split; [reflexivity|]. split; [done|].
    intros _. exists []. split; [done|]. intros ev Hev.
    by apply elem_of_nil in Hev.
Qed.

(** X1. Whatever the image and the outcome of the computations, the
    dictionary returned by [calculate_image_metrics] has exactly the
    names of the enabled metrics as its keys, and the call leaves the
    parquet file alone. *)
Theorem metrics_keys_are_enabled (self : BaseLogger) (img : pyval) (w : World) :
  exists results w',
    calculate_image_metrics self img w = (Ok results, w')
    /\ store w' = store w
    /\ forall key, is_Some (results !! key)
                   <-> exists m, m ∈ enabled_metrics self /\ value m = key.
Proof.
  rewrite calculate_image_metrics_run.
  assert (Hkeys : forall (g : CVMetrics -> pyval) key,
            is_Some (foldl (fun r f => <[value f := g f]> r)
                           (∅ : gmap string pyval)
                           (enabled_metrics self) !! key)
            <-> exists m, m ∈ enabled_metrics self /\ value m = key).
  { intros g key. rewrite foldl_insert_is_Some, lookup_empty.
    split; [|by left]. intros [Hm | Hnone]; [done|].
    by destruct Hnone. }
  destruct (is_None img || bool_decide (enabled_metrics self = [])).
  { eexists _, _. split; [reflexivity|]. split; [done|].
    apply (Hkeys (fun _ => PyNone)). }
  destruct (_set_image img) as [a|e]; eexists _, _;
    (split; [reflexivity|]); (split; [done|]).
  - apply Hkeys.
  - apply (Hkeys (fun _ => PyNone)).
Qed.

(** X2. [calculate_image_metrics] builds the calculator at most once
    per call: not at all on the fast path (no image, or no enabled
    metric), and exactly once, before any method call, otherwise. *)
Theorem calculator_is_built_at_most_once
    (self : BaseLogger) (img : pyval) (w : World) :
  exists results w' evs,
    calculate_image_metrics self img w = (Ok results, w')
    /\ trace w' = trace w ++ evs
    /\ (img = PyNone \/ enabled_metrics self = [] -> evs = [])
    /\ (img <> PyNone -> enabled_metrics self <> [] ->
        exists calls, evs = EvConstruct :: calls /\ EvConstruct ∉ calls).
Proof.
  destruct (calculate_image_metrics_events self img w)
    as (results & evs & Hrun & Hfast & Hslow).
  eexists results, _, evs. split; [exact Hrun|]. split; [done|]. split.
  - intros Hcase. apply Hfast. destruct Hcase as [-> | ->]; [done|].
    apply orb_true_r.
  - intros Himg Hen. destruct Hslow as (calls & -> & Hcalls).
    { replace (is_None img) with false by (by destruct img).
      by rewrite bool_decide_eq_false_2. }
    exists calls. split; [done|]. intros Hin.
    by destruct (Hcalls _ Hin).
Qed.

(** X3. The only methods of the calculator that the logger ever calls
    are [calculate_contrast] and [calculate_blur]: no enabled metric
    makes it call [calculate_orientation_type] or [calculate_brightness]. *)
Theorem only_contrast_and_blur_are_called
    (self : BaseLogger) (img : pyval) (w : World) :
  exists results w' evs,
    calculate_image_metrics self img w = (Ok results, w')
    /\ trace w' = trace w ++ evs
    /\ (forall method, EvCall method ∈ evs ->
          method = "calculate_contrast" \/ method = "calculate_blur")
    /\ (EvCall "calculate_orientation_type" ∉ evs)
    /\ (EvCall "calculate_brightness" ∉ evs).
Proof.
  destruct (calculate_image_metrics_events self img w)
    as (results & evs & Hrun & Hfast & Hslow).
  assert (Hcalls : forall method, EvCall method ∈ evs ->
            method = "calculate_contrast" \/ method = "calculate_blur").
  { intros method Hin.
    destruct (is_None img || bool_decide (enabled_metrics self = [])).
    - rewrite Hfast in Hin by done. by apply elem_of_nil in Hin.
    - destruct Hslow as (calls & -> & Hc); [done|].
      apply elem_of_cons in Hin. destruct Hin as [Hin | Hin]; [done|].
      destruct (Hc _ Hin) as [[= ->] | [= ->]]; auto. }
  eexists results, _, evs. split; [exact Hrun|]. split; [done|].
  split; [exact Hcalls|].
  split; intros Hin; by destruct (Hcalls _ Hin).
Qed.

Lemma passed_over_set_image (img : pyval) :
  passed_over img = true -> img <> PyNone /\ _set_image img = Ok None.
Proof. by destruct img. Qed.

Lemma no_image_no_value (m : CVMetrics) : metric_value (mk_calc None) m = PyNone.
Proof. by destruct m. Qed.

(** X4. An image argument that is neither a PIL image, nor an array,
    nor a string (a number, say) is not refused: with some metric
    enabled the calculator is built all the same, around no image, and
    every enabled metric comes out as [None]. *)
Theorem passed_over_image_gives_none
    (self : BaseLogger) (img : pyval) (w : World) :
  passed_over img = true ->
  enabled_metrics self <> [] ->
  exists results w',
    calculate_image_metrics self img w = (Ok results, w')
    /\ EvConstruct ∈ trace w'
    /\ forall m, m ∈ enabled_metrics self -> results !! value m = Some PyNone.
Proof.
  intros Himg Hen. destruct (passed_over_set_image _ Himg) as [Hnone Hset].
  rewrite calculate_image_metrics_run, Hset.
  replace (is_None img) with false by (by destruct img).
  rewrite bool_decide_eq_false_2 by done. simpl.
  eexists _, _. split; [reflexivity|]. split.
  - simpl. apply elem_of_app. right. left.
  - intros m Hm.
    rewrite (foldl_insert_member value (metric_value (mk_calc None)));
      [by rewrite no_image_no_value|done|].
    intros m' _ Heq. by rewrite (value_inj _ _ Heq).
Qed.

(** X5. For an array argument the constructor keeps the pixels and
    only ever adds a last axis of length one to a two-dimensional array;
    so [calculate_orientation_type] reads the first two axes of the
    array as given: it returns 0.0 when the height exceeds the width,
    1.0 when the width exceeds the height and 0.5 for a square, and it
    raises on an array of fewer than two dimensions. *)
Theorem orientation_of_array (a : ndarray) :
  exists a',
    _set_image (PyArray a) = Ok (Some a')
    /\ pixels a' = pixels a
    /\ shape a' = (if Nat.eqb (ndim a) 2 then shape a ++ [1] else shape a)
    /\ (forall h w rest, shape a = h :: w :: rest ->
          calculate_orientation_type (mk_calc (Some a'))
          = Ok (if (w <? h)%nat then 0.0%float
                else if (h <? w)%nat then 1.0%float else 0.5%float))
    /\ (ndim a < 2 ->
          exists e, calculate_orientation_type (mk_calc (Some a')) = Raise e).
Proof.
  unfold _set_image, ndim, calculate_orientation_type, on_image.
  destruct (Nat.eqb (length (shape a)) 2) eqn:Hdim; eexists;
    (split; [reflexivity|]); (split; [reflexivity|]); (split; [reflexivity|]);
    simpl.
  - apply Nat.eqb_eq in Hdim. split.
    + intros h w' rest ->. simpl.
      by destruct (w' <? h)%nat, (h <? w')%nat.
    + lia.
  - split.
    + intros h w' rest ->. by destruct (w' <? h)%nat, (h <? w')%nat.
    + intros Hlt. destruct (shape a) as [|h [|w' rest]]; simpl in *;
        [by eexists | by eexists | lia].
Qed.

(** X6. Because of that added axis, [calculate_blur] never takes a
    two-dimensional array as the grey image it is: it sends the array,
    reshaped to one channel, through the RGB-to-grey conversion like a
    three-dimensional one.  Only an array of another rank reaches the
    Laplacian unconverted. *)
Theorem blur_of_array (a : ndarray) :
  exists a',
    _set_image (PyArray a) = Ok (Some a')
    /\ calculate_blur (mk_calc (Some a'))
       = if Nat.eqb (ndim a) 2
         then obind (cv2_cvtColor_RGB2GRAY
                       (mk_ndarray (shape a ++ [1]) (pixels a)))
                    cv2_Laplacian_var
         else if Nat.eqb (ndim a) 3
              then obind (cv2_cvtColor_RGB2GRAY a) cv2_Laplacian_var
              else cv2_Laplacian_var a.
Proof.
  unfold _set_image, ndim, calculate_blur, on_image.
  destruct (Nat.eqb (length (shape a)) 2) eqn:Hdim; eexists;
    (split; [reflexivity|]); simpl.
  - apply Nat.eqb_eq in Hdim. rewrite length_app, Hdim. reflexivity.
  - by destruct (Nat.eqb (length (shape a)) 3).
Qed.

(** X7. [requires_image] and [_ADDITIONAL_REQUIREMENTS] agree: a
    metric requires an image exactly when the table of additional
    requirements lists ["image"] for it.  Every metric the calculator
    has a method for requires an image, and BBOX_RATIO, which requires
    none, has no method either. *)
Theorem requires_image_agrees (m : CVMetrics) :
  (requires_image m = true <-> (m, "image") ∈ _ADDITIONAL_REQUIREMENTS)
  /\ (is_Some (getattr ("calculate_" +:+ value m)) -> requires_image m = true)
  /\ (requires_image m = false -> m = BBOX_RATIO).
Proof.
  split; [|split].
  - split.
    + intros Hr. apply list_elem_of_In. destruct m; vm_compute in *;
        intuition discriminate.
    + intros Hin. apply list_elem_of_In in Hin.
      destruct m; vm_compute in *; intuition discriminate.
  - intros [f Hf]. destruct m; vm_compute in *; congruence.
  - intros Hr. destruct m; vm_compute in Hr; congruence.
Qed.

Lemma no_image_fast_path_run self w :
  calculate_image_metrics self PyNone w
  = (Ok (all_none (enabled_metrics self) ∅), w)
  /\ forall m, m ∈ enabled_metrics self ->
       all_none (enabled_metrics self) ∅ !! value m = Some PyNone.
Proof. split; [done|]. intros m Hm. by apply all_none_member. Qed.

(** ** Opening a store *)

Lemma zip_empty_arrays (sch : list Field) :
  zip_with mk_column sch (map (fun _ => []) sch)
  = map (fun f => mk_column f []) sch.
Proof. induction sch as [|f sch IH]; simpl; [done | by rewrite IH]. Qed.


Lemma empty_table_eq (sch : list Field) :
  from_arrays (map (fun _ => []) sch) sch
  = mk_table (map (fun f => mk_column f []) sch) 0.
Proof.
  unfold from_arrays. rewrite zip_empty_arrays. f_equal. by destruct sch.
Qed.

Lemma init_missing_run model enabled dir w :
  store w = None ->
  __init__ model enabled dir w
  = (Ok (mk_logger model (default [] enabled) dir),
     mk_world
       (Some (Parquet (mk_table (map (fun f => mk_column f [])
                                     (_create_schema (default [] enabled))) 0)))
       (trace w ++ [EvExists; EvWrite])).
Proof.
  intros Hs. unfold __init__, bind, path_exists, write_table, ret.
  rewrite Hs. cbv zeta. rewrite empty_table_eq. simpl.
  by rewrite <- app_assoc.
Qed.

Lemma init_present_run model enabled dir w f :
  store w = Some f ->
  __init__ model enabled dir w
  = match _evolve_schema (mk_logger model (default [] enabled) dir)
                         (mk_world (store w) (trace w ++ [EvExists])) with
    | (Ok _, w') => (Ok (mk_logger model (default [] enabled) dir), w')
    | (Raise e, w') => (Raise e, w')
    end.
Proof.
  intros Hs. unfold __init__, bind, path_exists, ret. rewrite Hs. simpl.
  by destruct (_evolve_schema _ _) as [[[]|e] w'].
Qed.




(** X9. Constructing a logger on a file that is not a parquet table
    fails: the exception of the read leaves [__init__], and the file is
    neither repaired nor overwritten. *)
Theorem init_fails_on_unreadable_file
    (model : string) (enabled : option (list CVMetrics)) (dir : string)
    (w : World) :
  store w = Some Garbage ->
  exists e w',
    __init__ model enabled dir w = (Raise e, w')
    /\ store w' = Some Garbage
    /\ trace w' = trace w ++ [EvExists; EvRead].
Proof.
  intros Hs. rewrite (init_present_run _ _ _ _ _ Hs).
  unfold _evolve_schema, bind, read_table. simpl. rewrite Hs.
  eexists _, _. split; [reflexivity|]. split; [done|]. simpl.
  by rewrite <- app_assoc.
Qed.



(** X12. The columns that [_evolve_schema] adds are exactly the names
    that the desired schema has and the file lacks, each of them once,
    also when a metric is enabled twice. *)
Theorem evolve_adds_exactly_missing (self : BaseLogger) (w : World) (t : Table) :
  store w = Some (Parquet t) ->
  exists w' t' added,
    _evolve_schema self w = (Ok tt, w')
    /\ store w' = Some (Parquet t')
    /\ columns t' = columns t ++ added
    /\ NoDup (names (map field added))
    /\ forall n, n ∈ names (map field added)
                 <-> n ∈ names (_create_schema (enabled_metrics self))
                     /\ n ∉ names (schema t).
Proof.
  intros Hs.
  destruct (evolve_schema_columns self w t Hs)
    as (w' & added & Hrun & Hs' & Hnodup & Hadded).
  eexists w', _, _. split; [exact Hrun|]. split; [exact Hs'|].
  split; [reflexivity|].
  assert (Hnames : names (map field
            (map (fun col => mk_column (pa_field col pa_float32)
                                       (repeat Null (num_rows t))) added))
          = added).
  { unfold names. rewrite !map_map. simpl. apply map_id. }
  rewrite Hnames. by split.
Qed.

(** X13. A column added by [_evolve_schema] is float32 whatever the
    desired schema says: when the file lacks a desired field, string
    fields such as [image_name] included, the file afterwards has a
    float32 column of that name and no column of that name of another
    type. *)
Theorem backfilled_column_is_float32
    (self : BaseLogger) (w : World) (t : Table) (f : Field) :
  store w = Some (Parquet t) ->
  f ∈ _create_schema (enabled_metrics self) ->
  name f ∉ names (schema t) ->
  exists w' t',
    _evolve_schema self w = (Ok tt, w')
    /\ store w' = Some (Parquet t')
    /\ pa_field (name f) pa_float32 ∈ schema t'
    /\ forall g, g ∈ schema t' -> name g = name f -> type g = pa_float32.
Proof.
  intros Hs Hf Hlack.
  destruct (evolve_schema_columns self w t Hs)
    as (w' & added & Hrun & Hs' & _ & Hadded).
  eexists w', _. split; [exact Hrun|]. split; [exact Hs'|].
  unfold schema. simpl. rewrite map_app, map_map. simpl. split.
  - apply elem_of_app. right. apply list_elem_of_fmap. exists (name f).
    split; [done|]. apply Hadded. split; [|done].
    apply list_elem_of_fmap. by exists f.
  - intros g Hg Hname. apply elem_of_app in Hg. destruct Hg as [Hg | Hg].
    + destruct Hlack. rewrite <- Hname. apply list_elem_of_fmap. by exists g.
    + apply list_elem_of_fmap in Hg. by destruct Hg as (n & -> & _).
Qed.

(** ** The table along a history *)

(** What one operation can do to a readable store. *)
Lemma step_store_cases (op : Op) (w : World) (t : Table) :
  store w = Some (Parquet t) ->
  store (step op w) = Some (Parquet t)
  \/ (exists added, store (step op w) = Some (Parquet (backfill t added)))
  \/ (exists cellrow,
        length cellrow = length (columns t)
        /\ store (step op w) = Some (Parquet (with_row t cellrow))).
Proof.
  intros Hst. destruct op as [model enabled dir | self kwargs]; simpl.
  - rewrite (init_present_run _ _ _ _ _ Hst).
    destruct (evolve_schema_columns
                (mk_logger model (default [] enabled) dir)
                (mk_world (store w) (trace w ++ [EvExists])) t Hst)
      as (w' & added & -> & Hs' & _). simpl. right. left. by exists added.
  - destruct (mandatory_loop _MANDATORY_FIELDS kwargs ∅) as [d|e] eqn:Hd.
    2: { unfold log_prediction, bind, lift. rewrite Hd. simpl. by left. }
    destruct (log_prediction_run self kwargs w d Hd)
      as (computed & w1 & _ & Hst1 & _ & ->).
    rewrite Hst in Hst1. rewrite (save_to_parquet_run _ _ _ _ Hst1).
    destruct (column_arrays _ _) as [arrays|] eqn:Harr; simpl; [|by left].
    assert (Hlen : length (data_row (computed ∪ d) (schema t))
                   = length (schema t))
      by (unfold data_row, names; by rewrite !length_map).
    destruct (column_arrays_cells _ _ _ Hlen Harr) as (row & -> & Hrow & _).
    right. right. exists row. split; [|done].
    rewrite Hrow. unfold schema. by rewrite length_map.
Qed.

Lemma step_store_missing (op : Op) (w : World) :
  store w = None ->
  store (step op w) = None
  \/ exists sch,
       store (step op w)
       = Some (Parquet (mk_table (map (fun f => mk_column f []) sch) 0)).
Proof.
  intros Hst. destruct op as [model enabled dir | self kwargs]; simpl.
  - rewrite (init_missing_run _ _ _ _ Hst). right. by eexists.
  - left. destruct (mandatory_loop _MANDATORY_FIELDS kwargs ∅) as [d|e] eqn:Hd.
    2: { unfold log_prediction, bind, lift. by rewrite Hd. }
    destruct (log_prediction_run self kwargs w d Hd)
      as (computed & w1 & _ & Hst1 & _ & ->).
    rewrite save_to_parquet_unreadable; [simpl; congruence|].
    intros t. rewrite Hst1, Hst. done.
Qed.

Lemma step_store_garbage (op : Op) (w : World) :
  store w = Some Garbage -> store (step op w) = Some Garbage.
Proof.
  intros Hst. destruct op as [model enabled dir | self kwargs]; simpl.
  - rewrite (init_present_run _ _ _ _ _ Hst).
    unfold _evolve_schema, bind, read_table. simpl. by rewrite Hst.
  - destruct (mandatory_loop _MANDATORY_FIELDS kwargs ∅) as [d|e] eqn:Hd.
    2: { unfold log_prediction, bind, lift. by rewrite Hd. }
    destruct (log_prediction_run self kwargs w d Hd)
      as (computed & w1 & _ & Hst1 & _ & ->).
    rewrite save_to_parquet_unreadable; [simpl; congruence|].
    intros t. rewrite Hst1, Hst. done.
Qed.

Lemma with_row_columns (t : Table) (cellrow : list Cell) :
  length cellrow = length (columns t) ->
  columns (with_row t cellrow)
  = zip_with (fun c cell => mk_column (field c) (cells c ++ [cell]))
             (columns t) cellrow.
Proof. apply concat_one_row. Qed.

Lemma with_row_num_rows (t : Table) (cellrow : list Cell) :
  num_rows (with_row t cellrow)
  = num_rows t + (if cellrow is [] then 0 else 1).
Proof. unfold with_row, concat_tables, from_arrays. simpl. by destruct cellrow. Qed.

Lemma backfill_wf (t : Table) (added : list string) :
  table_wf t -> table_wf (backfill t added).
Proof.
  intros Hwf c Hc. simpl in *. apply elem_of_app in Hc.
  destruct Hc as [Hc | Hc]; [by apply Hwf|].
  apply list_elem_of_fmap in Hc. destruct Hc as (n & -> & _). simpl.
  apply repeat_length.
Qed.

Lemma with_row_wf (t : Table) (cellrow : list Cell) :
  length cellrow = length (columns t) ->
  table_wf t -> table_wf (with_row t cellrow).
Proof.
  intros Hlen Hwf c Hc. rewrite with_row_columns in Hc by done.
  rewrite with_row_num_rows.
  apply elem_of_zip_with in Hc. destruct Hc as (c0 & cell & -> & Hc0 & Hcell).
  simpl. rewrite length_app, (Hwf _ Hc0). simpl.
  destruct cellrow; [by apply elem_of_nil in Hcell | done].
Qed.

Lemma step_wf (op : Op) (w : World) : store_wf w -> store_wf (step op w).
Proof.
  unfold store_wf. destruct (store w) as [[|t]|] eqn:Hst; intros Hwf.
  - by rewrite (step_store_garbage op w Hst).
  - destruct (step_store_cases op w t Hst)
      as [-> | [(added & ->) | (row & Hlen & ->)]];
      [done | by apply backfill_wf | by apply with_row_wf].
  - destruct (step_store_missing op w Hst) as [-> | (sch & ->)]; [done|].
    intros c Hc. simpl in *. apply list_elem_of_fmap in Hc.
    by destruct Hc as (f & -> & _).
Qed.

(** X14. Every column of the store has as many cells as the table has
    rows, and no history of constructions and logged predictions breaks
    this, from a store that has it or from no store at all. *)
Theorem store_stays_well_formed (ops : list Op) (w : World) :
  store_wf w -> store_wf (history ops w).
Proof.
  revert w. induction ops as [|op ops IH]; intros w Hwf; simpl; [done|].
  apply IH. by apply step_wf.
Qed.

Lemma extends_refl (t : Table) : extends t t.
Proof. split; [done|]. intros j c Hc. by exists c. Qed.

Lemma extends_trans (t1 t2 t3 : Table) :
  extends t1 t2 -> extends t2 t3 -> extends t1 t3.
Proof.
  intros [Hn12 H12] [Hn23 H23]. split; [lia|]. intros j c Hc.
  destruct (H12 j c Hc) as (c2 & Hc2 & Hf2 & Hp2).
  destruct (H23 j c2 Hc2) as (c3 & Hc3 & Hf3 & Hp3).
  exists c3. split; [done|]. split; [congruence|]. by etrans.
Qed.

Lemma backfill_extends (t : Table) (added : list string) :
  extends t (backfill t added).
Proof.
  split; [done|]. intros j c Hc. exists c. simpl.
  split; [|done]. by apply lookup_app_l_Some.
Qed.

Lemma with_row_extends (t : Table) (cellrow : list Cell) :
  length cellrow = length (columns t) -> extends t (with_row t cellrow).
Proof.
  intros Hlen. split; [rewrite with_row_num_rows; lia|]. intros j c Hc.
  rewrite with_row_columns by done.
  destruct (lookup_lt_is_Some_2 cellrow j) as [cell Hcell].
  { rewrite Hlen. by eapply lookup_lt_Some. }
  eexists. split.
  - rewrite lookup_zip_with, Hc. simpl. rewrite Hcell. reflexivity.
  - split; [done|]. simpl. by apply prefix_app_r.
Qed.

(** X15. The store is append-only.  Along any history that starts on
    a readable store, the store stays a readable table, its number of
    rows never goes down, and every column it had stays in its place,
    with its field, its old cells unchanged at the head of its cells. *)
Theorem store_is_append_only (ops : list Op) (w : World) (t : Table) :
  store w = Some (Parquet t) ->
  exists t',
    store (history ops w) = Some (Parquet t')
    /\ num_rows t <= num_rows t'
    /\ forall j c, columns t !! j = Some c ->
         exists c', columns t' !! j = Some c'
                    /\ field c' = field c
                    /\ cells c `prefix_of` cells c'.
Proof.
  intros Hst.
  assert (Hgo : exists t', store (history ops w) = Some (Parquet t')
                           /\ extends t t').
  { revert w t Hst. induction ops as [|op ops IH]; intros w t Hst; simpl.
    - exists t. split; [done | apply extends_refl].
    - destruct (step_store_cases op w t Hst)
        as [Hs | [(added & Hs) | (row & Hlen & Hs)]];
        destruct (IH _ _ Hs) as (t' & Hs' & Hext); exists t';
        (split; [done|]); [done| |];
        (eapply extends_trans; [|exact Hext]);
        [apply backfill_extends | by apply with_row_extends]. }
  destruct Hgo as (t' & Hs' & Hn & Hcols). by exists t'.
Qed.

(** ** More on logging a prediction *)

Lemma mandatory_loop_present fields : forall kwargs data,
  (forall f, f ∈ fields -> is_Some (kwargs !! f)) ->
  exists d, mandatory_loop fields kwargs data = Ok d.
Proof.
  induction fields as [|x fields IH]; intros kwargs data Hall; simpl.
  - by eexists.
  - destruct (Hall x) as [v ->]; [by left|]. apply IH.
    intros f Hf. apply Hall. by right.
Qed.

(** X16. [log_prediction] never creates the store.  Where there is no
    file, or a file that is not a parquet table, the call raises and
    leaves things as they are; with all mandatory fields present the
    exception is the [IOError] of [save_to_parquet]. *)
Theorem log_never_creates_the_store
    (self : BaseLogger) (kwargs : gmap string pyval) (w : World) :
  (forall t, store w <> Some (Parquet t)) ->
  exists e w',
    log_prediction self kwargs w = (Raise e, w')
    /\ store w' = store w
    /\ ((forall f, f ∈ _MANDATORY_FIELDS -> is_Some (kwargs !! f)) ->
        e = IOError "Failed to read parquet file").
Proof.
  intros Hst.
  destruct (mandatory_loop _MANDATORY_FIELDS kwargs ∅) as [d|e] eqn:Hd.
  - destruct (log_prediction_run self kwargs w d Hd)
      as (computed & w1 & _ & Hst1 & _ & ->).
    rewrite save_to_parquet_unreadable by (by rewrite Hst1).
    eexists _, _. split; [reflexivity|]. by split.
  - exists e, w. split.
    + unfold log_prediction, bind, lift. by rewrite Hd.
    + split; [done|]. intros Hall.
      destruct (mandatory_loop_present _MANDATORY_FIELDS kwargs ∅ Hall)
        as [d Hd']. congruence.
Qed.

(** What a successful [log_prediction] did, with the dictionary that
    reached [save_to_parquet]. *)
Lemma log_prediction_cells self kwargs w w' :
  log_prediction self kwargs w = (Ok tt, w') ->
  exists d computed w1 t row,
    mandatory_loop _MANDATORY_FIELDS kwargs ∅ = Ok d
    /\ calculate_image_metrics self (default PyNone (kwargs !! "image")) w
       = (Ok computed, w1)
    /\ store w = Some (Parquet t)
    /\ length row = length (columns t)
    /\ w' = mk_world (Some (Parquet (with_row t row)))
                     (trace w1 ++ [EvRead; EvWrite])
    /\ forall j f cell,
         schema t !! j = Some f -> row !! j = Some cell ->
         let v := default PyNone ((computed ∪ d) !! name f) in
         (v = PyNone -> cell = Null)
         /\ (forall e, convert (type f) v = Raise e -> cell = Null)
         /\ (forall v', v <> PyNone -> convert (type f) v = Ok v' ->
               v' <> PyNone -> cell = Val v').
Proof.
  intros Hrun.
  destruct (mandatory_loop _MANDATORY_FIELDS kwargs ∅) as [d|e] eqn:Hd.
  2: { unfold log_prediction, bind, lift in Hrun. by rewrite Hd in Hrun. }
  destruct (log_prediction_run self kwargs w d Hd)
    as (computed & w1 & Hcalc & Hst & _ & Heq).
  rewrite Heq in Hrun.
  destruct (store w1) as [[|t]|] eqn:Hs1.
  1,3: rewrite save_to_parquet_unreadable in Hrun by (rewrite Hs1; congruence);
       discriminate.
  rewrite (save_to_parquet_run _ _ _ _ Hs1) in Hrun.
  destruct (column_arrays _ _) as [arrays|] eqn:Harr; [|done].
  injection Hrun as <-.
  assert (Hlen : length (data_row (computed ∪ d) (schema t)) = length (schema t))
    by (unfold data_row, names; by rewrite !length_map).
  destruct (column_arrays_cells _ _ _ Hlen Harr) as (row & -> & Hrow & Hcells).
  exists d, computed, w1, t, row. split; [done|]. split; [done|].
  split; [congruence|]. split.
  { rewrite Hrow. unfold schema. by rewrite length_map. }
  split; [done|]. intros j f cell Hf Hc. eapply Hcells; [done| |done].
  by apply data_row_lookup.
Qed.

Lemma row_below (cols : list Column) : forall (cellrow : list Cell) (i : nat),
  length cellrow = length cols ->
  (forall c, c ∈ cols -> i < length (cells c)) ->
  map (fun c => nth i (cells c) Null)
      (zip_with (fun c cell => mk_column (field c) (cells c ++ [cell]))
                cols cellrow)
  = map (fun c => nth i (cells c) Null) cols.
Proof.
  induction cols as [|c cols IH]; intros [|cell cellrow] i Hlen Hlt; try done.
  simpl in *. f_equal.
  - apply app_nth1, Hlt. by left.
  - apply IH; [lia|]. intros c' Hc'. apply Hlt. by right.
Qed.

Lemma row_last (cols : list Column) : forall (cellrow : list Cell) (n : nat),
  length cellrow = length cols ->
  (forall c, c ∈ cols -> length (cells c) = n) ->
  map (fun c => nth n (cells c) Null)
      (zip_with (fun c cell => mk_column (field c) (cells c ++ [cell]))
                cols cellrow)
  = cellrow.
Proof.
  induction cols as [|c cols IH]; intros [|cell cellrow] n Hlen Hn; try done.
  simpl in *. f_equal.
  - rewrite <- (Hn c) by left. apply nth_middle.
  - apply IH; [lia|]. intros c' Hc'. apply Hn. by right.
Qed.

Lemma with_row_rows (t : Table) (cellrow : list Cell) :
  table_wf t -> columns t <> [] ->
  length cellrow = length (columns t) ->
  num_rows (with_row t cellrow) = S (num_rows t)
  /\ table_rows (with_row t cellrow) = table_rows t ++ [cellrow].
Proof.
  intros Hwf Hcols Hlen.
  assert (Hn : num_rows (with_row t cellrow) = S (num_rows t)).
  { rewrite with_row_num_rows. destruct cellrow; [|lia].
    destruct (columns t); [done | discriminate]. }
  split; [done|]. unfold table_rows. rewrite Hn, seq_S, map_app. simpl.
  f_equal.
  - apply map_ext_in. intros i Hi. apply in_seq in Hi.
    unfold table_row. rewrite with_row_columns by done.
    apply row_below; [done|]. intros c Hc. rewrite (Hwf c Hc). lia.
  - f_equal. unfold table_row. rewrite with_row_columns by done.
    by apply row_last.
Qed.

(** X17. On a store that has a column and is well formed, a successful
    [log_prediction] leaves the rows that were there as they were and
    puts exactly one row after them, with one cell per column. *)
Theorem log_appends_one_row
    (self : BaseLogger) (kwargs : gmap string pyval) (w w' : World) (t : Table) :
  store w = Some (Parquet t) ->
  table_wf t ->
  columns t <> [] ->
  log_prediction self kwargs w = (Ok tt, w') ->
  exists t' row,
    store w' = Some (Parquet t')
    /\ schema t' = schema t
    /\ num_rows t' = S (num_rows t)
    /\ length row = length (columns t)
    /\ table_rows t' = table_rows t ++ [row].
Proof.
  intros Hst Hwf Hcols Hrun.
  destruct (log_prediction_cells _ _ _ _ Hrun)
    as (d & computed & w1 & t0 & row & _ & _ & Hst0 & Hlen & -> & _).
  rewrite Hst in Hst0. injection Hst0 as <-.
  destruct (with_row_rows t row Hwf Hcols Hlen) as [Hn Hrows].
  exists (with_row t row), row. split; [done|]. split.
  - unfold schema at 1. rewrite with_row_columns by done.
    by apply schema_zip_cells.
  - by repeat split.
Qed.

(** X18. [log_prediction] writes the file when and only when it
    succeeds, and then once: a call that returns has read the file once
    and written it once, as its last two steps; a call that raises has
    written nothing and leaves the store as it found it. *)
Theorem log_writes_iff_it_succeeds
    (self : BaseLogger) (kwargs : gmap string pyval) (w : World) :
  exists r w' evs,
    log_prediction self kwargs w = (r, w')
    /\ trace w' = trace w ++ evs
    /\ (r = Ok tt ->
        exists before, evs = before ++ [EvRead; EvWrite]
                       /\ (EvRead ∉ before) /\ (EvWrite ∉ before))
    /\ (forall e, r = Raise e -> (EvWrite ∉ evs) /\ store w' = store w).
Proof.
  destruct (mandatory_loop _MANDATORY_FIELDS kwargs ∅) as [d|e] eqn:Hd.
  2: { exists (Raise e), w, []. split.
       - unfold log_prediction, bind, lift. by rewrite Hd.
       - rewrite app_nil_r. split; [done|]. split; [done|].
         intros e' _. split; [apply not_elem_of_nil | done]. }
  destruct (log_prediction_run self kwargs w d Hd)
    as (computed & w1 & Hcalc & Hst & _ & ->).
  destruct (calculate_image_metrics_events self
              (default PyNone (kwargs !! "image")) w)
    as (results & evs & Hev & Hfast & Hslow).
  rewrite Hcalc in Hev. injection Hev as <- ->.
  assert (Hquiet : (EvRead ∉ evs) /\ (EvWrite ∉ evs)).
  { destruct (is_None _ || bool_decide _).
    - rewrite Hfast by done. split; apply not_elem_of_nil.
    - destruct Hslow as (calls & -> & Hcalls); [done|].
      split; intros Hin; apply elem_of_cons in Hin;
        destruct Hin as [Hin | Hin]; try done;
        by destruct (Hcalls _ Hin). }
  destruct Hquiet as [Hr Hw]. simpl in *.
  destruct (store w) as [[|t]|] eqn:Hsw.
  1,3: rewrite save_to_parquet_unreadable by (simpl; congruence);
       eexists _, _, (evs ++ [EvRead]);
       (split; [reflexivity|]); simpl;
       (split; [by rewrite app_assoc|]); (split; [done|]);
       intros e _; (split; [|done]);
       rewrite elem_of_app, list_elem_of_singleton; by intros [?|?].
  rewrite (save_to_parquet_run _ _ _ t) by done.
  destruct (column_arrays _ _) as [arrays|e].
  - eexists _, _, (evs ++ [EvRead; EvWrite]). split; [reflexivity|]. simpl.
    split; [by rewrite app_assoc|]. split; [|done].
    intros _. by exists evs.
  - eexists _, _, (evs ++ [EvRead]). split; [reflexivity|]. simpl.
    split; [by rewrite app_assoc|]. split; [done|].
    intros e' _. split; [|done].
    rewrite elem_of_app, list_elem_of_singleton. by intros [?|?].
Qed.

Lemma computed_metrics_other self img w key :
  (forall m, m ∈ enabled_metrics self -> value m <> key) ->
  exists results w',
    calculate_image_metrics self img w = (Ok results, w')
    /\ results !! key = None.
Proof.
  intros Hkey. rewrite calculate_image_metrics_run.
  assert (Hnone : all_none (enabled_metrics self) ∅ !! key = None)
    by (by rewrite all_none_other).
  destruct (is_None img || bool_decide (enabled_metrics self = []));
    [by eexists _, _|].
  destruct (_set_image img) as [a|e]; [|by eexists _, _].
  eexists _, _. split; [reflexivity|].
  by rewrite (foldl_insert_other value (metric_value (mk_calc a))).
Qed.

(** X19. Keyword arguments other than the mandatory fields and
    [image] never reach the store, and a metric that is not enabled is
    not computed: in every column that is named neither after a
    mandatory field nor after an enabled metric, a successful
    [log_prediction] writes null, whatever the arguments. *)
Theorem other_columns_get_null
    (self : BaseLogger) (kwargs : gmap string pyval) (w w' : World) :
  log_prediction self kwargs w = (Ok tt, w') ->
  exists t row,
    store w = Some (Parquet t)
    /\ store w' = Some (Parquet (with_row t row))
    /\ length row = length (columns t)
    /\ forall j f cell,
         schema t !! j = Some f -> row !! j = Some cell ->
         name f ∉ _MANDATORY_FIELDS ->
         (forall m, m ∈ enabled_metrics self -> value m <> name f) ->
         cell = Null.
Proof.
  intros Hrun.
  destruct (log_prediction_cells _ _ _ _ Hrun)
    as (d & computed & w1 & t & row & Hd & Hcalc & Hst & Hlen & -> & Hcells).
  exists t, row. split; [done|]. split; [done|]. split; [done|].
  intros j f cell Hf Hc Hman Hmet.
  destruct (Hcells j f cell Hf Hc) as [Hnull _]. apply Hnull.
  destruct (computed_metrics_other self (default PyNone (kwargs !! "image"))
              w (name f) Hmet) as (c' & w'' & Hcalc' & Hnone).
  rewrite Hcalc in Hcalc'. injection Hcalc' as <- <-.
  rewrite lookup_union_r by done.
  destruct (mandatory_loop_ok _ _ _ _ Hd) as [_ Hout].
  by rewrite (Hout _ Hman), lookup_empty.
Qed.

(** X20. Without an image (no [image] argument, or [image=None]) a
    successful [log_prediction] builds no calculator, goes straight to
    the read and the write of the file, and writes null in the column of
    every enabled metric. *)
Theorem no_image_metric_columns_null
    (self : BaseLogger) (kwargs : gmap string pyval) (w w' : World) :
  default PyNone (kwargs !! "image") = PyNone ->
  log_prediction self kwargs w = (Ok tt, w') ->
  exists t row,
    store w = Some (Parquet t)
    /\ store w' = Some (Parquet (with_row t row))
    /\ trace w' = trace w ++ [EvRead; EvWrite]
    /\ forall j f cell m,
         schema t !! j = Some f -> row !! j = Some cell ->
         m ∈ enabled_metrics self -> name f = value m ->
         cell = Null.
Proof.
  intros Himg Hrun.
  destruct (log_prediction_cells _ _ _ _ Hrun)
    as (d & computed & w1 & t & row & Hd & Hcalc & Hst & Hlen & -> & Hcells).
  rewrite Himg in Hcalc.
  destruct (no_image_fast_path_run self w) as [Hfast Hall].
  rewrite Hfast in Hcalc. injection Hcalc as <- <-.
  exists t, row. split; [done|]. split; [done|]. split; [done|].
  intros j f cell m Hf Hc Hm Hname.
  destruct (Hcells j f cell Hf Hc) as [Hnull _]. apply Hnull.
  rewrite Hname, (lookup_union_Some_l _ _ _ PyNone); [done|]. by apply Hall.
Qed.

(** ** More on the analytics consumer *)

(** X21. Every failure of [_load_data] reaches the caller as the same
    [IOError]: an empty or missing directory, a directory without a
    file matching [*.parquet], and an unreadable first match alike. *)
Theorem load_data_failures_are_IOError (dir : Directory) :
  (glob_parquet dir = [] ->
   _load_data dir = Raise (IOError "Failed to load data from parquet file"))
  /\ (forall n rest, glob_parquet dir = (n, Garbage) :: rest ->
        _load_data dir = Raise (IOError "Failed to load data from parquet file"))
  /\ (forall e, _load_data dir = Raise e ->
        e = IOError "Failed to load data from parquet file").
Proof.
  unfold _load_data. split; [by intros ->|]. split; [by intros n rest ->|].
  intros e.
  destruct (glob_parquet dir) as [|[n [|t]] rest]; simpl; by intros [= <-].
Qed.

(** X22. Files that the pattern does not match do not count: an entry
    whose name does not end in [.parquet], or starts with a dot, can be
    added to the directory or removed from it, anywhere, without any
    change to what [_load_data] returns. *)
Theorem load_data_skips_other_files
    (before after : Directory) (entry : string * File) :
  matches_parquet (fst entry) = false ->
  _load_data (before ++ entry :: after) = _load_data (before ++ after).
Proof.
  intros Hno.
  assert (Hglob : glob_parquet (before ++ entry :: after)
                  = glob_parquet (before ++ after)).
  { unfold glob_parquet, Directory. rewrite !filter_app, filter_cons.
    destruct (decide _) as [Hyes|]; [|done]. by rewrite Hno in Hyes. }
  unfold _load_data. by rewrite Hglob.
Qed.


End Properties.

(** * The properties on the sample inputs *)

Import Sample Examples.

Ltac in_list := apply list_elem_of_In; vm_compute; tauto.
Ltac not_in_list :=
  let H := fresh in
  intros H; apply list_elem_of_In in H; vm_compute in H; intuition discriminate.

(** A grey two-dimensional array: OpenCV refuses it, numpy does not. *)
Example blur_fails_contrast_stays :
  let results :=
    fst (calculate_image_metrics (logger [BLUR; CONTRAST; ORIENTATION])
                                 (PyArray grey_2d) empty_world) in
  match results with
  | Ok r => r !! "blur" = Some PyNone
            /\ r !! "contrast" = Some (PyFloat 0.0)
            /\ r !! "orientation" = Some PyNone
  | Raise _ => False
  end.
Proof. vm_compute. auto. Qed.

(** The scenario "create then evolve" of the specification. *)
Example create_then_evolve :
  let w := history [Construct "my_model" (Some [CONTRAST; BLUR]) "lookout_cv_logs"]
                   one_row_store in
  names (schema (table_of one_row_store))
    = _MANDATORY_FIELDS ++ ["contrast"]
  /\ names (schema (table_of w)) = _MANDATORY_FIELDS ++ ["contrast"; "blur"]
  /\ num_rows (table_of w) = 1
  /\ map (fun r => last r) (table_rows (table_of w)) = [Some Null].
Proof. vm_compute. auto. Qed.

(** C1 fails as stated: the call below passes [image_name=None]
    together with the six other mandatory fields; it succeeds, and the
    row it appends has null in the mandatory column [image_name]. *)
Lemma mandatory_field_written_null :
  exists w' t' c,
    log_prediction (logger [CONTRAST]) nameless fresh_store = (Ok tt, w')
    /\ store w' = Some (Parquet t')
    /\ c ∈ columns t'
    /\ name (field c) = "image_name"
    /\ name (field c) ∈ _MANDATORY_FIELDS
    /\ cells c = [Null].
Proof.
  eexists _, _, (mk_column (pa_field "image_name" pa_string) [Null]).
  split; [vm_compute; reflexivity|]. split; [reflexivity|].
  split; [left|]. split; [reflexivity|]. split; [in_list | reflexivity].
Qed.

Lemma mandatory_cells_follow_arguments_witness :
  log_prediction (logger [CONTRAST]) batman fresh_store
    = (Ok tt, one_row_store)
  /\ exists t', store one_row_store = Some (Parquet t')
                /\ length (columns t') = 8.
Proof.
  assert (Hrun : log_prediction (logger [CONTRAST]) batman fresh_store
                 = (Ok tt, one_row_store)) by (vm_compute; reflexivity).
  split; [exact Hrun|].
  destruct (mandatory_cells_follow_arguments _ _ _ _ Hrun)
    as (t & t' & row & Ht & Ht' & Hlen & Hcols & _).
  exists t'. split; [exact Ht'|].
  rewrite Hcols, length_zip_with, Hlen. unfold schema. rewrite length_map.
  injection Ht as <-. reflexivity.
Defined.

Lemma schema_only_grows_witness :
  store one_row_store = Some (Parquet (table_of one_row_store))
  /\ exists s',
       store_schema
         (history [Construct "my_model" (Some [BLUR]) "lookout_cv_logs";
                   Log (logger [BLUR]) robin]
                  one_row_store)
       = Some (schema (table_of one_row_store) ++ s').
Proof.
  assert (Hs : store one_row_store = Some (Parquet (table_of one_row_store)))
    by reflexivity.
  split; [exact Hs|].
  destruct (schema_only_grows (logger [BLUR]) one_row_store _
              [Construct "my_model" (Some [BLUR]) "lookout_cv_logs";
               Log (logger [BLUR]) robin] Hs)
    as (_ & s' & Hs' & _).
  exists s'. exact Hs'.
Defined.

Lemma backfill_is_null_witness :
  store one_row_store = Some (Parquet (table_of one_row_store))
  /\ (exists n, n ∈ names (_create_schema (enabled_metrics (logger [CONTRAST; BLUR])))
                /\ n ∉ names (schema (table_of one_row_store)))
  /\ exists w' t',
       _evolve_schema (logger [CONTRAST; BLUR]) one_row_store = (Ok tt, w')
       /\ store w' = Some (Parquet t')
       /\ num_rows t' = 1.
Proof.
  assert (Hs : store one_row_store = Some (Parquet (table_of one_row_store)))
    by reflexivity.
  assert (Hm : exists n,
             n ∈ names (_create_schema (enabled_metrics (logger [CONTRAST; BLUR])))
             /\ n ∉ names (schema (table_of one_row_store))).
  { exists "blur". split; [in_list | not_in_list]. }
  split; [exact Hs|]. split; [exact Hm|].
  destruct (backfill_is_null (logger [CONTRAST; BLUR]) one_row_store _ Hs Hm)
    as (w' & t' & added & Hrun & Hst & _ & _ & Hrows & _).
  exists w', t'. split; [exact Hrun|]. split; [exact Hst|]. exact Hrows.
Defined.

(** A value that fails conversion: [confidence="abc"] in a float32
    column.  The append succeeds and only that cell is null. *)
Example bad_confidence_is_null :
  table_rows (table_of (history [Log (logger [CONTRAST]) bad_confidence]
                                fresh_store))
  = [[Val (PyStr "test_image.jpg"); Val (PyStr "batman"); Null;
      Val (PyFloat 5); Val (PyFloat 10); Val (PyFloat 50); Val (PyFloat 60);
      Val (PyFloat 0)]].
Proof. vm_compute. reflexivity. Qed.


Lemma missing_mandatory_field_rejected_witness :
  (exists f, f ∈ _MANDATORY_FIELDS /\ no_bbox_y2 !! f = None)
  /\ exists f, log_prediction (logger [CONTRAST]) no_bbox_y2 one_row_store
               = (Raise (ValueError ("Missing mandatory field: " +:+ f)),
                  one_row_store).
Proof.
  assert (Hm : exists f, f ∈ _MANDATORY_FIELDS /\ no_bbox_y2 !! f = None).
  { exists "bbox_y2". split; [in_list | reflexivity]. }
  split; [exact Hm|].
  destruct (missing_mandatory_field_rejected (logger [CONTRAST]) no_bbox_y2
              one_row_store Hm) as (f & _ & _ & Hrun & _).
  exists f. exact Hrun.
Defined.

Lemma no_image_fast_path_witness :
  enabled_metrics (logger [CONTRAST; BLUR]) <> []
  /\ exists results,
       calculate_image_metrics (logger [CONTRAST; BLUR]) PyNone one_row_store
       = (Ok results, one_row_store)
       /\ results !! "contrast" = Some PyNone
       /\ results !! "blur" = Some PyNone.
Proof.
  assert (Hen : enabled_metrics (logger [CONTRAST; BLUR]) <> [])
    by discriminate.
  split; [exact Hen|].
  destruct (no_image_fast_path (logger [CONTRAST; BLUR]) one_row_store Hen)
    as (results & Hrun & Hall & _).
  exists results. split; [exact Hrun|]. split.
  - apply (Hall CONTRAST). in_list.
  - apply (Hall BLUR). in_list.
Defined.

Lemma orientation_and_bbox_ratio_are_null_witness :
  (ORIENTATION = ORIENTATION \/ ORIENTATION = BBOX_RATIO)
  /\ ORIENTATION ∈ enabled_metrics (logger [CONTRAST; ORIENTATION])
  /\ exists results w',
       calculate_image_metrics (logger [CONTRAST; ORIENTATION])
                               (PyArray grey_rgb) empty_world
       = (Ok results, w')
       /\ results !! "orientation" = Some PyNone.
Proof.
  assert (Hm : ORIENTATION = ORIENTATION \/ ORIENTATION = BBOX_RATIO)
    by (left; reflexivity).
  assert (Hin : ORIENTATION ∈ enabled_metrics (logger [CONTRAST; ORIENTATION]))
    by in_list.
  split; [exact Hm|]. split; [exact Hin|].
  destruct (orientation_and_bbox_ratio_are_null
              (logger [CONTRAST; ORIENTATION]) (PyArray grey_rgb) empty_world
              ORIENTATION Hm Hin) as (_ & _ & results & w' & Hrun & Hnull).
  exists results, w'. split; [exact Hrun | exact Hnull].
Defined.

(** C10 fails as stated: the directory holds the files of two writers,
    the glob matches both, and the row of the second file is not in the
    loaded data. *)
Lemma second_file_is_not_loaded :
  exists df second t2 r,
    glob_parquet two_writers = two_writers
    /\ _load_data two_writers = Ok df
    /\ second ∈ glob_parquet two_writers
    /\ snd second = Parquet t2
    /\ r ∈ table_rows t2
    /\ r ∉ df_rows df.
Proof.
  eexists _, ("my_model_logs_202.parquet", _), _, _.
  split; [reflexivity|]. split; [vm_compute; reflexivity|].
  split; [right; left|]. split; [reflexivity|].
  split; [vm_compute; left|].
  intros Hin. vm_compute in Hin. apply list_elem_of_singleton in Hin.
  discriminate Hin.
Qed.

Lemma load_data_reads_first_match_witness :
  glob_parquet two_writers = two_writers
  /\ _load_data two_writers = Ok (to_pandas (table_of one_row_store)).
Proof.
  assert (Hg : glob_parquet two_writers
               = ("my_model_logs_101.parquet", Parquet (table_of one_row_store))
                 :: tl two_writers) by reflexivity.
  split; [reflexivity|].
  destruct (load_data_reads_first_match two_writers _ _ Hg) as [Hok _].
  destruct (Hok (table_of one_row_store) eq_refl) as [Hload _].
  exact Hload.
Defined.

(** ** Further properties on the sample inputs *)

Ltac wf_by_cases :=
  let c := fresh "c" in
  let Hc := fresh "Hc" in
  intros c Hc; apply list_elem_of_In in Hc; vm_compute in Hc;
  repeat (destruct Hc as [<- | Hc]; [reflexivity|]); contradiction.

Lemma passed_over_image_gives_none_witness :
  passed_over (PyInt 7) = true
  /\ enabled_metrics (logger [CONTRAST; BLUR]) <> []
  /\ exists results w',
       calculate_image_metrics (logger [CONTRAST; BLUR]) (PyInt 7) empty_world
       = (Ok results, w')
       /\ results !! "blur" = Some PyNone.
Proof.
  assert (Hp : passed_over (PyInt 7) = true) by reflexivity.
  assert (Hen : enabled_metrics (logger [CONTRAST; BLUR]) <> [])
    by discriminate.
  split; [exact Hp|]. split; [exact Hen|].
  destruct (passed_over_image_gives_none (logger [CONTRAST; BLUR]) (PyInt 7)
              empty_world Hp Hen) as (results & w' & Hrun & _ & Hall).
  exists results, w'. split; [exact Hrun|]. apply (Hall BLUR). in_list.
Defined.


Lemma init_fails_on_unreadable_file_witness :
  store garbage_world = Some Garbage
  /\ exists e w',
       __init__ "my_model" (Some [CONTRAST]) "lookout_cv_logs" garbage_world
       = (Raise e, w').
Proof.
  assert (Hs : store garbage_world = Some Garbage) by reflexivity.
  split; [exact Hs|].
  destruct (init_fails_on_unreadable_file "my_model" (Some [CONTRAST])
              "lookout_cv_logs" garbage_world Hs) as (e & w' & Hrun & _).
  exists e, w'. exact Hrun.
Defined.



Lemma evolve_adds_exactly_missing_witness :
  store foreign_store = Some (Parquet (table_of foreign_store))
  /\ exists w' t',
       _evolve_schema (logger [CONTRAST; CONTRAST]) foreign_store = (Ok tt, w')
       /\ store w' = Some (Parquet t')
       /\ length (columns t') = 8.
Proof.
  assert (Hs : store foreign_store = Some (Parquet (table_of foreign_store)))
    by reflexivity.
  split; [exact Hs|].
  destruct (evolve_adds_exactly_missing (logger [CONTRAST; CONTRAST])
              foreign_store _ Hs) as (w' & t' & added & Hrun & Hst & _).
  exists w', t'. split; [exact Hrun|]. split; [exact Hst|].
  vm_compute in Hrun. injection Hrun as <-. vm_compute in Hst.
  injection Hst as <-. reflexivity.
Defined.

Lemma backfilled_column_is_float32_witness :
  store foreign_store = Some (Parquet (table_of foreign_store))
  /\ pa_field "image_name" pa_string
     ∈ _create_schema (enabled_metrics (logger []))
  /\ ("image_name" ∉ names (schema (table_of foreign_store)))
  /\ exists w' t',
       _evolve_schema (logger []) foreign_store = (Ok tt, w')
       /\ store w' = Some (Parquet t')
       /\ pa_field "image_name" pa_float32 ∈ schema t'.
Proof.
  assert (Hs : store foreign_store = Some (Parquet (table_of foreign_store)))
    by reflexivity.
  assert (Hf : pa_field "image_name" pa_string
               ∈ _create_schema (enabled_metrics (logger []))) by in_list.
  assert (Hl : name (pa_field "image_name" pa_string)
               ∉ names (schema (table_of foreign_store))) by not_in_list.
  split; [exact Hs|]. split; [exact Hf|]. split; [exact Hl|].
  destruct (backfilled_column_is_float32 (logger []) foreign_store _ _ Hs Hf Hl)
    as (w' & t' & Hrun & Hst & Hin & _).
  exists w', t'. split; [exact Hrun|]. split; [exact Hst | exact Hin].
Defined.

Lemma store_stays_well_formed_witness :
  store_wf fresh_store
  /\ store_wf (history [Log (logger [CONTRAST]) batman;
                        Construct "my_model" (Some [BLUR]) "lookout_cv_logs";
                        Log (logger [BLUR]) robin] fresh_store).
Proof.
  assert (Hwf : store_wf fresh_store) by (unfold store_wf; simpl; wf_by_cases).
  split; [exact Hwf|]. apply (store_stays_well_formed _ _ Hwf).
Defined.

Lemma store_is_append_only_witness :
  store one_row_store = Some (Parquet (table_of one_row_store))
  /\ exists t',
       store (history [Construct "my_model" None "lookout_cv_logs";
                       Log (logger []) robin] one_row_store)
       = Some (Parquet t')
       /\ 1 <= num_rows t'.
Proof.
  assert (Hs : store one_row_store = Some (Parquet (table_of one_row_store)))
    by reflexivity.
  split; [exact Hs|].
  destruct (store_is_append_only
              [Construct "my_model" None "lookout_cv_logs";
               Log (logger []) robin] one_row_store _ Hs)
    as (t' & Hst & Hn & _).
  exists t'. split; [exact Hst | exact Hn].
Defined.

Lemma log_never_creates_the_store_witness :
  (forall t, store empty_world <> Some (Parquet t))
  /\ exists e w',
       log_prediction (logger [CONTRAST]) batman empty_world = (Raise e, w')
       /\ store w' = None.
Proof.
  assert (Hs : forall t, store empty_world <> Some (Parquet t))
    by (intros t; discriminate).
  split; [exact Hs|].
  destruct (log_never_creates_the_store (logger [CONTRAST]) batman
              empty_world Hs) as (e & w' & Hrun & Hst & _).
  exists e, w'. split; [exact Hrun | exact Hst].
Defined.

Lemma log_appends_one_row_witness :
  store fresh_store = Some (Parquet (table_of fresh_store))
  /\ table_wf (table_of fresh_store)
  /\ columns (table_of fresh_store) <> []
  /\ log_prediction (logger [CONTRAST]) batman fresh_store
     = (Ok tt, one_row_store)
  /\ exists t', store one_row_store = Some (Parquet t') /\ num_rows t' = 1.
Proof.
  assert (Hs : store fresh_store = Some (Parquet (table_of fresh_store)))
    by reflexivity.
  assert (Hwf : table_wf (table_of fresh_store)) by wf_by_cases.
  assert (Hc : columns (table_of fresh_store) <> []) by discriminate.
  assert (Hrun : log_prediction (logger [CONTRAST]) batman fresh_store
                 = (Ok tt, one_row_store)) by (vm_compute; reflexivity).
  split; [exact Hs|]. split; [exact Hwf|]. split; [exact Hc|].
  split; [exact Hrun|].
  destruct (log_appends_one_row _ _ _ _ _ Hs Hwf Hc Hrun)
    as (t' & row & Hst & _ & Hn & _).
  exists t'. split; [exact Hst | exact Hn].
Defined.

Lemma other_columns_get_null_witness :
  log_prediction (logger []) batman one_row_store
  = (Ok tt, snd (log_prediction (logger []) batman one_row_store))
  /\ exists (t : Table) (row : list Cell),
       store one_row_store = Some (Parquet t)
       /\ length row = length (columns t).
Proof.
  assert (Hrun : log_prediction (logger []) batman one_row_store
                 = (Ok tt, snd (log_prediction (logger []) batman one_row_store)))
    by (vm_compute; reflexivity).
  split; [exact Hrun|].
  destruct (other_columns_get_null _ _ _ _ Hrun) as (t & row & Hst & _ & Hlen & _).
  exists t, row. split; [exact Hst | exact Hlen].
Defined.

(** The [contrast] column of a logger that no longer has the metric. *)
Example disabled_metric_is_null :
  map (fun r => last r)
      (table_rows (table_of (history [Log (logger []) batman] one_row_store)))
  = [Some (Val (PyFloat 0)); Some Null].
Proof. vm_compute. reflexivity. Qed.

Lemma no_image_metric_columns_null_witness :
  default PyNone (no_image !! "image") = PyNone
  /\ log_prediction (logger [CONTRAST]) no_image fresh_store
     = (Ok tt, snd (log_prediction (logger [CONTRAST]) no_image fresh_store))
  /\ trace (snd (log_prediction (logger [CONTRAST]) no_image fresh_store))
     = trace fresh_store ++ [EvRead; EvWrite].
Proof.
  assert (Himg : default PyNone (no_image !! "image") = PyNone) by reflexivity.
  assert (Hrun : log_prediction (logger [CONTRAST]) no_image fresh_store
                 = (Ok tt,
                    snd (log_prediction (logger [CONTRAST]) no_image fresh_store)))
    by (vm_compute; reflexivity).
  split; [exact Himg|]. split; [exact Hrun|].
  destruct (no_image_metric_columns_null _ _ _ _ Himg Hrun)
    as (t & row & _ & _ & Htr & _).
  exact Htr.
Defined.

Lemma load_data_skips_other_files_witness :
  matches_parquet (fst ("README.txt", Garbage)) = false
  /\ _load_data one_writer = Ok (to_pandas (table_of one_row_store)).
Proof.
  assert (Hno : matches_parquet (fst ("README.txt", Garbage)) = false)
    by reflexivity.
  split; [exact Hno|].
  transitivity (_load_data ([] ++ tl one_writer)); [|reflexivity].
  exact (load_data_skips_other_files [] (tl one_writer)
           ("README.txt", Garbage) Hno).
Defined.

